(** * sublime-cli: the subcommand decorators of [sublime/cli/decorator.py]

    A shallow embedding of the decorator layer ([echo_result],
    [handle_exceptions], [pass_api_client], [enrich_command],
    [analyze_command]) together with the pieces of Python, [os.path] and
    click they rely on, followed by the properties the specification states
    about them.

    Python strings are [string]s (sequences of 8-bit characters); the path
    and strip functions work on their character lists.  Effects (standard
    output, files, the log, constructed API clients) are threaded through an
    explicit [World]; a computation returns a value or raises a Python
    exception. *)

From Stdlib Require Import ZArith String Ascii List Lia Bool.
From Stdlib Require Import DecimalString DecimalFacts DecimalPos DecimalZ.
From stdpp Require Import base option gmap strings list.

Open Scope string_scope.
Open Scope list_scope.

(** ** Python strings *)

Module PyStr.

Definition chars (s : string) : list ascii := list_ascii_of_string s.
Definition of_chars (l : list ascii) : string := string_of_list_ascii l.

Definition newline : ascii := ascii_of_nat 10.
Definition dquote : ascii := ascii_of_nat 34.
Definition squote : ascii := ascii_of_nat 39.
Definition backslash : ascii := ascii_of_nat 92.

(** [s.rfind(c)] for a one-character [c]: the highest index of [c] in [s],
    or [-1]. *)
Fixpoint rfind (c : ascii) (s : list ascii) : Z :=
  match s with
  | [] => (-1)%Z
  | x :: s' =>
      let r := rfind c s' in
      if (0 <=? r)%Z then (r + 1)%Z
      else if Ascii.eqb x c then 0%Z else (-1)%Z
  end.

(** Slices [s[:i]] and [s[i:]] for [0 <= i]. *)
Definition slice_to (s : list ascii) (i : Z) : list ascii := take (Z.to_nat i) s.
Definition slice_from (s : list ascii) (i : Z) : list ascii := drop (Z.to_nat i) s.

(** [s.lstrip(c)], [s.rstrip(c)] and [s.strip(c)] for a one-character [c]. *)
Fixpoint lstrip (c : ascii) (s : list ascii) : list ascii :=
  match s with
  | x :: s' => if Ascii.eqb x c then lstrip c s' else s
  | [] => []
  end.

Definition rstrip (c : ascii) (s : list ascii) : list ascii :=
  rev (lstrip c (rev s)).

Definition strip (c : ascii) (s : list ascii) : list ascii :=
  rstrip c (lstrip c s).

(** [output.strip("\n")] and, for comparison, [output.rstrip("\n")]. *)
Definition strip_newlines (s : string) : string :=
  of_chars (strip newline (chars s)).

Definition rstrip_newlines (s : string) : string :=
  of_chars (rstrip newline (chars s)).

Definition contains (c : ascii) (s : string) : bool :=
  existsb (Ascii.eqb c) (chars s).

(** The string that is one newline. *)
Definition nl : string := String newline EmptyString.

End PyStr.

(** ** [os.path] (the POSIX flavour, [posixpath]) *)

Module OsPath.
Import PyStr.

Definition sep : ascii := "/"%char.
Definition extsep : ascii := "."%char.

(** [c != extsep]. *)
Definition non_dot (c : ascii) : bool := negb (Ascii.eqb c extsep).

(** The [while filenameIndex < dotIndex] loop of [genericpath._splitext]:
    [n] iterations are left; it answers whether a character other than a
    dot stands between the last separator and the last dot. *)
Fixpoint has_non_dot (p : list ascii) (filenameIndex : Z) (n : nat) : bool :=
  match n with
  | O => false
  | S n' =>
      match p !! Z.to_nat filenameIndex with
      | Some c =>
          if non_dot c then true
          else has_non_dot p (filenameIndex + 1) n'
      | None => false
      end
  end.

(** [genericpath._splitext(p, sep, None, extsep)]. *)
Definition splitext_chars (p : list ascii) : list ascii * list ascii :=
  let sepIndex := rfind sep p in
  let dotIndex := rfind extsep p in
  if (sepIndex <? dotIndex)%Z then
    let filenameIndex := (sepIndex + 1)%Z in
    if has_non_dot p filenameIndex (Z.to_nat (dotIndex - filenameIndex))
    then (slice_to p dotIndex, slice_from p dotIndex)
    else (p, [])
  else (p, []).

(** [posixpath.basename(p)]. *)
Definition basename_chars (p : list ascii) : list ascii :=
  let i := (rfind sep p + 1)%Z in
  slice_from p i.

Definition splitext (p : string) : string * string :=
  let '(root, ext) := splitext_chars (chars p) in (of_chars root, of_chars ext).

Definition basename (p : string) : string :=
  of_chars (basename_chars (chars p)).

End OsPath.

(** ** Python values *)

Module Py.
Import PyStr.

(** The data values that reach this layer: [None], booleans, integers,
    strings, lists and dictionaries with string keys (in insertion order,
    keys distinct). *)
#[warnings="-register-all"]
Inductive pyval :=
| PNone
| PBool (b : bool)
| PInt (z : Z)
| PStr (s : string)
| PList (l : list pyval)
| PDict (d : list (string * pyval)).

(** File objects: the standard streams, a file opened for reading or for
    writing on a path, and click's [LazyFile], which opens its path (in
    mode [w], creating or emptying it) at the first write. *)
Inductive file :=
| Stdin
| Stdout
| Reader (path : string)
| Writer (path : string)
| LazyFile (path : string).

(** The [name] attribute of a file object. *)
Definition file_name (f : file) : string :=
  match f with
  | Stdin => "<stdin>"
  | Stdout => "<stdout>"
  | Reader path => path
  | Writer path => path
  | LazyFile path => path
  end.

(** A value of [context.params]: a data value or a file object. *)
Inductive arg :=
| AVal (v : pyval)
| AFile (f : file).

(** [bool(v)]. *)
Definition truthy (v : pyval) : bool :=
  match v with
  | PNone => false
  | PBool b => b
  | PInt z => negb (z =? 0)%Z
  | PStr s => negb (String.eqb s EmptyString)
  | PList l => match l with [] => false | _ => true end
  | PDict d => match d with [] => false | _ => true end
  end.

(** File objects define neither [__bool__] nor [__len__]: they are true. *)
Definition arg_truthy (a : arg) : bool :=
  match a with
  | AVal v => truthy v
  | AFile _ => true
  end.

Definition str_of_Z (z : Z) : string := NilZero.string_of_int (Z.to_int z).

Definition hex_digit (n : N) : ascii :=
  if (n <? 10)%N then ascii_of_N (48 + n) else ascii_of_N (87 + n).

(** [str.isprintable] on one character below 256. *)
Definition printable (c : ascii) : bool :=
  let n := N_of_ascii c in
  ((32 <=? n)%N && (n <=? 126)%N) || ((161 <=? n)%N && negb (n =? 173)%N).

(** One character of [repr(s)], inside quotes [q]. *)
Definition repr_char (q c : ascii) : list ascii :=
  if Ascii.eqb c backslash then [backslash; backslash]
  else if Ascii.eqb c q then [backslash; q]
  else if Ascii.eqb c (ascii_of_nat 9) then [backslash; "t"%char]
  else if Ascii.eqb c newline then [backslash; "n"%char]
  else if Ascii.eqb c (ascii_of_nat 13) then [backslash; "r"%char]
  else if printable c then [c]
  else
    let n := N_of_ascii c in
    [backslash; "x"%char; hex_digit (n / 16); hex_digit (n mod 16)].

(** [repr(s)] of a string: single quotes, unless the string has a single
    quote and no double quote. *)
Definition repr_str (s : string) : string :=
  let q := if contains squote s && negb (contains dquote s) then dquote else squote in
  of_chars (q :: concat (map (repr_char q) (chars s)) ++ [q]).

Fixpoint py_repr (v : pyval) : string :=
  match v with
  | PNone => "None"
  | PBool true => "True"
  | PBool false => "False"
  | PInt z => str_of_Z z
  | PStr s => repr_str s
  | PList l => "[" +:+ String.concat ", " (map py_repr l) +:+ "]"
  | PDict d =>
      "{" +:+ String.concat ", "
                (map (fun kv => repr_str (fst kv) +:+ ": " +:+ py_repr (snd kv)) d)
          +:+ "}"
  end.

(** [str(v)], which is what [format] puts in place of [{}]. *)
Definition py_str (v : pyval) : string :=
  match v with
  | PStr s => s
  | _ => py_repr v
  end.

(** [d.get(key)] on the entries of a dictionary. *)
Fixpoint assoc (key : string) (d : list (string * pyval)) : option pyval :=
  match d with
  | [] => None
  | (k, v) :: d' => if String.eqb k key then Some v else assoc key d'
  end.

(** Python exceptions, by the classes this layer tells apart. *)
Inductive exn :=
| RequestFailure (args : list pyval)
    (** [sublime.exceptions.RequestFailure], with its [args] tuple *)
| RequestException (message : string)
    (** [requests.exceptions.RequestException] or a subclass of it, with
        [str(exception)] *)
| Exit (code : Z)
    (** [click.exceptions.Exit], raised by [Context.exit] *)
| KeyError (key : arg)
| IndexError
| TypeError
| AttributeError
| OtherError (name : string).

End Py.

(** ** The world, and computations that may raise *)

Module Run.
Import PyStr Py.

(** An API client, [Sublime(api_key=...)]. *)
Record Client := { client_api_key : arg }.

(** The part of the world the decorators act on.  Every path names a
    regular file that can be opened for writing. *)
Record World := {
  stdout : string;              (** text written to standard output *)
  files : gmap string string;   (** contents of the files, by path *)
  log : list string;            (** messages given to [LOGGER.error] *)
  clients : list Client;        (** API clients constructed so far *)
  network : list string;        (** requests sent to the remote service *)
  stdin_isatty : bool;          (** [sys.stdin.isatty()] *)
  stdout_isatty : bool          (** [sys.stdout.isatty()] *)
}.

Inductive outcome (A : Type) :=
| Return (a : A)
| Raise (e : exn).
Arguments Return {A} a.
Arguments Raise {A} e.

Definition M (A : Type) : Type := World -> outcome A * World.

Definition ret {A} (a : A) : M A := fun w => (Return a, w).
Definition raise {A} (e : exn) : M A := fun w => (Raise e, w).
Definition bind {A B} (c : M A) (k : A -> M B) : M B :=
  fun w =>
    match c w with
    | (Return a, w') => k a w'
    | (Raise e, w') => (Raise e, w')
    end.

(** [try: c  except ...: handler]; a handler answering [None] lets the
    exception go on. *)
Definition try_except {A} (c : M A) (handler : exn -> option (M A)) : M A :=
  fun w =>
    match c w with
    | (Return a, w') => (Return a, w')
    | (Raise e, w') =>
        match handler e with
        | Some h => h w'
        | None => (Raise e, w')
        end
    end.

Definition set_stdout (f : string -> string) (w : World) : World :=
  {| stdout := f (stdout w); files := files w; log := log w;
     clients := clients w; network := network w;
     stdin_isatty := stdin_isatty w; stdout_isatty := stdout_isatty w |}.
Definition set_files (f : gmap string string -> gmap string string) (w : World) : World :=
  {| stdout := stdout w; files := f (files w); log := log w;
     clients := clients w; network := network w;
     stdin_isatty := stdin_isatty w; stdout_isatty := stdout_isatty w |}.
Definition set_log (f : list string -> list string) (w : World) : World :=
  {| stdout := stdout w; files := files w; log := f (log w);
     clients := clients w; network := network w;
     stdin_isatty := stdin_isatty w; stdout_isatty := stdout_isatty w |}.
Definition set_clients (f : list Client -> list Client) (w : World) : World :=
  {| stdout := stdout w; files := files w; log := log w;
     clients := f (clients w); network := network w;
     stdin_isatty := stdin_isatty w; stdout_isatty := stdout_isatty w |}.

Definition modify (f : World -> World) : M unit := fun w => (Return tt, f w).

(** [f.write(text)].  A [LazyFile] opens its path in mode [w] at its first
    write, which is the only write a handle receives in this layer. *)
Definition file_write (f : file) (text : string) : M unit :=
  match f with
  | Stdout => modify (set_stdout (fun out => out +:+ text))
  | LazyFile path => modify (set_files (fun fs => <[path := text]> fs))
  | Writer path =>
      modify (set_files (fun fs => <[path := default EmptyString (fs !! path) +:+ text]> fs))
  | Stdin | Reader _ => raise (OtherError "UnsupportedOperation")
  end.

(** [LOGGER.error(message)]. *)
Definition LOGGER_error (message : string) : M unit :=
  modify (set_log (fun l => l ++ [message])).

(** [Sublime(api_key=api_key)]. *)
Definition Sublime (api_key : arg) : M Client :=
  fun w =>
    let api_client := {| client_api_key := api_key |} in
    (Return api_client, set_clients (fun l => l ++ [api_client]) w).

(** Python dictionaries with string keys: [d[key]] and [d.get(key, default)]. *)
Definition dict_getitem {V} (d : gmap string V) (key : string) : M V :=
  match d !! key with
  | Some v => ret v
  | None => raise (KeyError (AVal (PStr key)))
  end.

Definition dict_get {V} (d : gmap string V) (key : string) (dflt : V) : V :=
  default dflt (d !! key).

(** [t[i]] on a tuple. *)
Definition tuple_getitem (t : list pyval) (i : nat) : M pyval :=
  match t !! i with
  | Some v => ret v
  | None => raise IndexError
  end.

(** [v[key]] for a string [key]: dictionaries look the key up, the other
    values are not subscriptable or refuse a string index. *)
Definition subscript (v : pyval) (key : string) : M pyval :=
  match v with
  | PDict d =>
      match assoc key d with
      | Some x => ret x
      | None => raise (KeyError (AVal (PStr key)))
      end
  | _ => raise TypeError
  end.

End Run.

Declare Scope run_scope.
Delimit Scope run_scope with run.
Notation "x <- c1 ;; c2" := (Run.bind c1 (fun x => c2))
  (at level 100, c1 at next level, right associativity) : run_scope.
Notation "c1 ;; c2" := (Run.bind c1 (fun _ => c2))
  (at level 100, right associativity) : run_scope.

(** ** click *)

Module Click.
Import PyStr Py Run.
Open Scope run_scope.

Record ParentContext := { info_name : pyval }.

Record Context := {
  command_name : string;           (** [context.command.name] *)
  params : gmap string arg;        (** [context.params] *)
  parent : option ParentContext    (** [context.parent] *)
}.

(** [context.exit(code)]. *)
Definition exit {A} (code : Z) : M A := raise (Exit code).

(** [click.open_file(filename, mode="w")]: [-] is standard output, any
    other name is opened now, which creates or empties the file. *)
Definition open_file (filename : string) : M file :=
  if String.eqb filename "-" then ret Stdout
  else
    modify (set_files (fun fs => <[filename := EmptyString]> fs)) ;;
    ret (Writer filename).

(** The escape character, [\033]. *)
Definition ESC : ascii := ascii_of_nat 27.

(** The classes [[;?0-9]] and [[a-zA-Z]] of [click._compat._ansi_re], which
    is [\033\[[;?0-9]*[a-zA-Z]]. *)
Definition ansi_parameter (c : ascii) : bool :=
  let n := N_of_ascii c in
  ((48 <=? n)%N && (n <=? 57)%N) || Ascii.eqb c ";" || Ascii.eqb c "?".

Definition ansi_letter (c : ascii) : bool :=
  let n := N_of_ascii c in
  ((97 <=? n)%N && (n <=? 122)%N) || ((65 <=? n)%N && (n <=? 90)%N).

(** [[;?0-9]*[a-zA-Z]] matched at the head of [s]: the number of characters
    of the match.  No letter is a parameter character, so the match is the
    longest run of parameter characters and the letter after it. *)
Fixpoint ansi_tail (s : list ascii) : option nat :=
  match s with
  | [] => None
  | c :: s' =>
      if ansi_parameter c then S <$> ansi_tail s'
      else if ansi_letter c then Some 1%nat
      else None
  end.

(** [_ansi_re] matched at the head of [s]: the number of characters of the
    match. *)
Definition ansi_match (s : list ascii) : option nat :=
  match s with
  | e :: b :: s' =>
      if Ascii.eqb e ESC && Ascii.eqb b "[" then (fun n => S (S n)) <$> ansi_tail s'
      else None
  | _ => None
  end.

(** [_ansi_re.sub("", s)]: the matches, found from left to right, are left
    out; [skip] characters of the match under way are still to pass. *)
Fixpoint sub_ansi (skip : nat) (s : list ascii) : list ascii :=
  match s with
  | [] => []
  | c :: s' =>
      match skip with
      | S n => sub_ansi n s'
      | O =>
          match ansi_match s with
          | Some len => sub_ansi (len - 1) s'
          | None => c :: sub_ansi 0 s'
          end
      end
  end.

(** [click._compat.strip_ansi(value)]. *)
Definition strip_ansi (value : string) : string :=
  of_chars (sub_ansi 0 (chars value)).

(** [stream.isatty()]: the standard streams may be terminals, a regular
    file is none.  A [LazyFile] opens its path to answer, and the write that
    follows finds it open. *)
Definition isatty (stream : file) (w : World) : bool :=
  match stream with
  | Stdin => stdin_isatty w
  | Stdout => stdout_isatty w
  | Reader _ | Writer _ | LazyFile _ => false
  end.

(** [should_strip_ansi(stream, color)] for the [color] that
    [resolve_color_default] finds when neither the call nor the context
    sets one, [None], outside a Jupyter kernel: the codes stay on a terminal
    only. *)
Definition should_strip_ansi (stream : file) : M bool :=
  fun w => (Return (negb (isatty stream w)), w).

(** The end of [click.echo]: the ANSI codes are taken out of the message
    unless the stream is a terminal, and the message is written. *)
Definition echo_message (message : string) (file : file) : M unit :=
  strip <- should_strip_ansi file ;;
  file_write file (if strip then strip_ansi message else message).

(** [click.echo(message, file=file)] for a string [message]: the message
    and a newline go to the file, to standard output when the file is
    [None]. *)
Definition echo (message : string) (file : arg) : M unit :=
  let message := message +:+ nl in
  match file with
  | AVal PNone => echo_message message Stdout
  | AFile f => echo_message message f
  | AVal _ => raise AttributeError
  end.

(** [click.File()] and [click.File(mode="w")] applied to an option's value. *)
Definition File_r (value : string) : file :=
  if String.eqb value "-" then Stdin else Reader value.
Definition File_w (value : string) : file :=
  if String.eqb value "-" then Stdout else LazyFile value.

(** What [BaseCommand.main] makes of the callback's outcome: the exit
    status handed to [sys.exit]; an exception it does not know ends the
    interpreter with status 1. *)
Definition exit_status {A} (r : outcome A) : Z :=
  match r with
  | Return _ => 0
  | Raise (Exit code) => code
  | Raise _ => 1
  end.

End Click.

(** ** The decorators *)

Module Decorator.
Import PyStr Py Run Click.
Open Scope run_scope.

(** The name of the file in which [echo_result] saves the MDM, computed
    from the name of the input file. *)
Definition output_file_name (input_file_relative_name : string) : string :=
  let input_file_relative_no_ext := fst (OsPath.splitext input_file_relative_name) in
  let input_file_name_no_ext := OsPath.basename input_file_relative_no_ext in
  input_file_name_no_ext +:+ ".mdm".

Section Decorators.

(** The result object of the remote service, which this layer hands to
    a formatter without looking into it. *)
Context {Response : Type}.

(** A formatter takes the result and the [verbose] argument. *)
Definition formatter : Type := Response -> arg -> string.

(** The formatters of [sublime.cli.formatter]. *)
Variables json_formatter enrich_formatter analyze_formatter : formatter.

(** An entry of [FORMATTERS]: a formatter, or a dictionary of formatters
    by subcommand name. *)
Inductive formatters_entry :=
| Callable (f : formatter)
| PerCommand (d : gmap string formatter).

(** Modelled from the spec: the table [FORMATTERS] of
    [sublime.cli.formatter], which is not among the sources.  It has one
    entry for each output format, and the text entry holds one formatter
    for each subcommand. *)
Definition FORMATTERS : gmap string formatters_entry :=
  {[ "json" := Callable json_formatter;
     "txt" := PerCommand {[ "enrich" := enrich_formatter;
                            "analyze" := analyze_formatter ]} ]}.

(** [FORMATTERS[key]]: lists and dictionaries are not hashable. *)
Definition FORMATTERS_getitem (key : arg) : M formatters_entry :=
  match key with
  | AVal (PStr k) => dict_getitem FORMATTERS k
  | AVal (PList _) | AVal (PDict _) => raise TypeError
  | _ => raise (KeyError key)
  end.

(** [formatter(result, verbose)] on an entry: a dictionary cannot be
    called. *)
Definition call (entry : formatters_entry) (result : Response) (verbose : arg) : M string :=
  match entry with
  | Callable f => ret (f result verbose)
  | PerCommand _ => raise TypeError
  end.

(** [params.get('input_file').name]. *)
Definition input_file_name (params : gmap string arg) : M string :=
  match dict_get params "input_file" (AVal PNone) with
  | AFile f => ret (file_name f)
  | AVal _ => raise AttributeError
  end.

(** [echo_result(function)], called in the context [ctx]. *)
Definition echo_result (ctx : Context) (function : M Response) : M unit :=
  result <- function ;;
  let params := params ctx in
  output_format <- dict_getitem params "output_format" ;;
  formatter <- FORMATTERS_getitem output_format ;;
  formatter <- match formatter with
               | PerCommand d => f <- dict_getitem d (command_name ctx) ;; ret (Callable f)
               | Callable _ => ret formatter
               end ;;
  text <- call formatter result (dict_get params "verbose" (AVal (PBool false))) ;;
  let output := strip_newlines text in
  stdout_stream <- open_file "-" ;;
  echo output (dict_get params "output_file" (AFile stdout_stream)) ;;
  if String.eqb (command_name ctx) "enrich"
     && negb (arg_truthy (dict_get params "output_file" (AVal PNone)))
  then
    input_file_relative_name <- input_file_name params ;;
    let output_file_name := output_file_name input_file_relative_name in
    formatter <- FORMATTERS_getitem (AVal (PStr "json")) ;;
    text <- call formatter result (dict_get params "verbose" (AVal (PBool false))) ;;
    let output := strip_newlines text in
    mdm <- open_file output_file_name ;;
    echo output (AFile mdm)
  else ret tt.

(** [handle_exceptions(function)]. *)
Definition handle_exceptions {A} (function : M A) : M A :=
  try_except function (fun exception =>
    match exception with
    | RequestFailure args =>
        Some (body <- tuple_getitem args 1 ;;
              detail <- subscript body "detail" ;;
              let error_message := "API error: " +:+ py_str detail in
              LOGGER_error error_message ;;
              exit (-1))
    | RequestException message =>
        Some (let error_message := "API error: " +:+ message in
              LOGGER_error error_message ;;
              exit (-1))
    | _ => None
    end).

(** The text [pass_api_client] shows when it finds no API key. *)
Definition api_key_not_found (prog_name : pyval) : string :=
  nl +:+ "Error: API key not found." +:+ nl +:+ nl
  +:+ "To fix this problem, please use any of the following methods "
  +:+ "(in order of precedence):" +:+ nl
  +:+ "- Pass it using the -k/--api-key option." +:+ nl
  +:+ "- Set it in the SUBLIME_API_KEY environment variable." +:+ nl
  +:+ "- Run " +:+ repr_str (py_str prog_name +:+ " setup")
  +:+ " to save it to the configuration file." +:+ nl.

(** [context.parent.info_name]. *)
Definition parent_info_name (ctx : Context) : M pyval :=
  match parent ctx with
  | Some p => ret (info_name p)
  | None => raise AttributeError
  end.

(** [pass_api_client(function)], called in the context [ctx]; [config]
    is what [load_config()] returns. *)
Definition pass_api_client {A} (config : gmap string pyval) (ctx : Context)
    (function : Client -> M A) : M A :=
  let api_key := dict_get (params ctx) "api_key" (AVal PNone) in
  api_key <- match api_key with
             | AVal PNone =>
                 key <- dict_getitem config "api_key" ;;
                 (if negb (truthy key) then
                    prog_name <- parent_info_name ctx ;;
                    echo (api_key_not_found prog_name) (AVal PNone) ;;
                    exit (-1)
                  else ret tt) ;;
                 key <- dict_getitem config "api_key" ;;
                 ret (AVal key)
             | _ => ret api_key
             end ;;
  api_client <- Sublime api_key ;;
  function api_client.

(** The two output formats of [click.Choice(["json", "txt"])]. *)
Inductive Format := Json | Txt.

Definition format_name (f : Format) : string :=
  match f with Json => "json" | Txt => "txt" end.

(** The options of a command line that click has accepted. *)
Record Options := {
  opt_api_key : option string;      (** the value click found for [-k/--api-key] *)
  opt_input : string;               (** [-i/--input], required *)
  opt_detections : string;          (** [-d/--detections], [analyze] only *)
  opt_output : option string;       (** [-o/--output] *)
  opt_format : option Format        (** [-f/--format], [txt] when absent *)
}.

Definition optional (a : option arg) : arg := default (AVal PNone) a.

(** [context.params] as the options of [enrich_command] build it. *)
Definition enrich_params (o : Options) : gmap string arg :=
  {[ "api_key" := optional ((fun k => AVal (PStr k)) <$> opt_api_key o);
     "input_file" := AFile (File_r (opt_input o));
     "output_file" := optional ((fun f => AFile (File_w f)) <$> opt_output o);
     "output_format" := AVal (PStr (format_name (default Txt (opt_format o)))) ]}.

(** [context.params] as the options of [analyze_command] build it. *)
Definition analyze_params (o : Options) : gmap string arg :=
  <[ "detections_file" := AFile (File_r (opt_detections o)) ]> (enrich_params o).

(** The stack of decorators both commands put around [function]:
    [pass_api_client], [click.pass_context], [echo_result],
    [handle_exceptions]. *)
Definition wrapper (config : gmap string pyval)
    (function : Context -> Client -> M Response) (ctx : Context) : M unit :=
  pass_api_client config ctx (fun api_client =>
    echo_result ctx (handle_exceptions (function ctx api_client))).

(** [enrich_command(function)], invoked as the subcommand [name] with the
    options [o]. *)
Definition enrich_command (name : string) (config : gmap string pyval)
    (function : Context -> Client -> M Response)
    (parent : option ParentContext) (o : Options) : M unit :=
  wrapper config function
    {| command_name := name; params := enrich_params o; parent := parent |}.

(** [analyze_command(function)], likewise. *)
Definition analyze_command (name : string) (config : gmap string pyval)
    (function : Context -> Client -> M Response)
    (parent : option ParentContext) (o : Options) : M unit :=
  wrapper config function
    {| command_name := name; params := analyze_params o; parent := parent |}.

(** Modelled from the spec: the two subcommands of the command line,
    [enrich] and [analyze].  Their definitions ([sublime/cli/subcommand.py])
    are not among the sources; [function] stands for the body of the
    subcommand, which calls the remote service through the client. *)
Inductive Action := Enrich | Analyze.

Definition action_name (a : Action) : string :=
  match a with Enrich => "enrich" | Analyze => "analyze" end.

Definition action_params (a : Action) (o : Options) : gmap string arg :=
  match a with Enrich => enrich_params o | Analyze => analyze_params o end.

(** The context click builds for the subcommand. *)
Definition context_of (a : Action) (parent : option ParentContext) (o : Options) : Context :=
  {| command_name := action_name a; params := action_params a o; parent := parent |}.

Definition run_command (a : Action) (config : gmap string pyval)
    (function : Context -> Client -> M Response)
    (parent : option ParentContext) (o : Options) : M unit :=
  match a with
  | Enrich => enrich_command "enrich" config function parent o
  | Analyze => analyze_command "analyze" config function parent o
  end.

(** *** The vocabulary of the properties *)

(** The credentials of an invocation, as the specification has them: the
    key given with [-k], else the key of the configuration when it holds a
    true one. *)
Definition credentials (config : gmap string pyval) (o : Options) : option arg :=
  match opt_api_key o with
  | Some k => Some (AVal (PStr k))
  | None =>
      match config !! "api_key" with
      | Some key => if truthy key then Some (AVal key) else None
      | None => None
      end
  end.

(** The formatter the output format selects for a subcommand. *)
Definition selected_formatter (a : Action) (f : Format) : formatter :=
  match f, a with
  | Json, _ => json_formatter
  | Txt, Enrich => enrich_formatter
  | Txt, Analyze => analyze_formatter
  end.

(** The primary output of a successful invocation, as [click.echo] receives
    it, and the JSON copy. *)
Definition primary_output (a : Action) (o : Options) (result : Response) : string :=
  strip_newlines
    (selected_formatter a (default Txt (opt_format o)) result (AVal (PBool false))).

Definition json_output (result : Response) : string :=
  strip_newlines (json_formatter result (AVal (PBool false))).

(** The world once the client for [key] is constructed. *)
Definition with_client (key : arg) (w : World) : World :=
  set_clients (fun l => l ++ [{| client_api_key := key |}]) w.

End Decorators.

(** The two classes of exception for which [handle_exceptions] has a
    handler: API error responses and transport failures. *)
Definition remote_failure (e : exn) : bool :=
  match e with
  | RequestFailure _ | RequestException _ => true
  | _ => false
  end.

(** The detail of a remote failure: [str(exception)] for a transport
    failure, [str(args[1]["detail"])] for an API error whose second argument
    is a dictionary with that key. *)
Definition error_detail (e : exn) : option string :=
  match e with
  | RequestException message => Some message
  | RequestFailure args =>
      match args !! 1%nat with
      | Some (PDict body) => py_str <$> assoc "detail" body
      | _ => None
      end
  | _ => None
  end.

(** One string occurs inside another. *)
Definition occurs_in (needle hay : string) : Prop :=
  exists before after, hay = before +:+ needle +:+ after.

(** A path with no separator names an entry of the current working
    directory. *)
Definition in_current_directory (path : string) : Prop :=
  OsPath.sep ∉ chars path.

(** The text a stream receives for a message given to [click.echo]: the
    message and a newline, without the ANSI codes unless the stream is a
    terminal.  A file is no terminal; standard output may be one. *)
Definition echoed (terminal : bool) (message : string) : string :=
  if terminal then message +:+ nl else strip_ansi (message +:+ nl).

End Decorator.

(** ** JSON *)

Module Json.
Import PyStr Py.

Definition is_digit (c : ascii) : bool :=
  ((48 <=? N_of_ascii c) && (N_of_ascii c <=? 57))%N.

Definition is_ws (c : ascii) : bool :=
  let n := N_of_ascii c in
  ((n =? 32) || (n =? 9) || (n =? 10) || (n =? 13))%N.

Fixpoint skip_ws (s : list ascii) : list ascii :=
  match s with
  | c :: r => if is_ws c then skip_ws r else s
  | [] => []
  end.

(** One character of a string, as [json.dumps] writes it. *)
Definition escape_char (c : ascii) : list ascii :=
  let n := N_of_ascii c in
  if Ascii.eqb c dquote then [backslash; dquote]
  else if Ascii.eqb c backslash then [backslash; backslash]
  else if (n =? 10)%N then [backslash; "n"%char]
  else if (n =? 13)%N then [backslash; "r"%char]
  else if (n =? 9)%N then [backslash; "t"%char]
  else if (n =? 8)%N then [backslash; "b"%char]
  else if (n =? 12)%N then [backslash; "f"%char]
  else if ((32 <=? n) && (n <=? 126))%N then [c]
  else [backslash; "u"%char; "0"%char; "0"%char; hex_digit (n / 16); hex_digit (n mod 16)].

Definition encode_string (s : string) : list ascii :=
  dquote :: flat_map escape_char (chars s) ++ [dquote].

Definition comma : list ascii := chars ", ".
Definition colon : list ascii := chars ": ".

(** [json.dumps(v)] with its defaults: [, ] and [: ] as separators,
    strings between double quotes, every character outside the printable
    ASCII range escaped. *)
Fixpoint dumps (v : pyval) : list ascii :=
  match v with
  | PNone => chars "null"
  | PBool true => chars "true"
  | PBool false => chars "false"
  | PInt z => chars (str_of_Z z)
  | PStr s => encode_string s
  | PList [] => chars "[]"
  | PList (x :: l) =>
      "["%char :: dumps x ++ flat_map (fun y => comma ++ dumps y) l ++ ["]"%char]
  | PDict [] => chars "{}"
  | PDict (kx :: d) =>
      "{"%char :: (encode_string (fst kx) ++ colon ++ dumps (snd kx))
        ++ flat_map (fun ky => comma ++ encode_string (fst ky) ++ colon ++ dumps (snd ky)) d
        ++ ["}"%char]
  end.

(** Modelled from the spec: the JSON formatter of [sublime.cli.formatter],
    which is not among the sources.  It writes the result as JSON text, the
    way [json.dumps] does; the verbosity plays no part.  The results are the
    values of [pyval], whose numbers are integers: floating-point numbers
    are outside this embedding. *)
Definition json_formatter (result : pyval) (_verbose : arg) : string :=
  of_chars (dumps result).

Definition hex_value (c : ascii) : option N :=
  let n := N_of_ascii c in
  if ((48 <=? n) && (n <=? 57))%N then Some (n - 48)%N
  else if ((97 <=? n) && (n <=? 102))%N then Some (n - 87)%N
  else if ((65 <=? n) && (n <=? 70))%N then Some (n - 55)%N
  else None.

(** The character a backslash stands before. *)
Definition unescape (c : ascii) : option ascii :=
  if Ascii.eqb c dquote then Some dquote
  else if Ascii.eqb c backslash then Some backslash
  else if Ascii.eqb c "/"%char then Some "/"%char
  else if Ascii.eqb c "n"%char then Some (ascii_of_nat 10)
  else if Ascii.eqb c "r"%char then Some (ascii_of_nat 13)
  else if Ascii.eqb c "t"%char then Some (ascii_of_nat 9)
  else if Ascii.eqb c "b"%char then Some (ascii_of_nat 8)
  else if Ascii.eqb c "f"%char then Some (ascii_of_nat 12)
  else None.

(** The characters of a string up to its closing quote, and what follows
    it.  A code point above 255 is outside the strings of this embedding. *)
Fixpoint parse_string_body (s : list ascii) : option (list ascii * list ascii) :=
  match s with
  | [] => None
  | c :: r =>
      if Ascii.eqb c dquote then Some ([], r)
      else if Ascii.eqb c backslash then
        match r with
        | [] => None
        | e :: r1 =>
            if Ascii.eqb e "u"%char then
              match r1 with
              | h1 :: h2 :: h3 :: h4 :: r2 =>
                  match hex_value h1, hex_value h2, hex_value h3, hex_value h4 with
                  | Some a, Some b, Some c', Some d =>
                      let code := (((a * 16 + b) * 16 + c') * 16 + d)%N in
                      if (code <? 256)%N then
                        match parse_string_body r2 with
                        | Some (str, rest) => Some (ascii_of_N code :: str, rest)
                        | None => None
                        end
                      else None
                  | _, _, _, _ => None
                  end
              | _ => None
              end
            else
              match unescape e, parse_string_body r1 with
              | Some x, Some (str, rest) => Some (x :: str, rest)
              | _, _ => None
              end
        end
      else if (N_of_ascii c <? 32)%N then None
      else
        match parse_string_body r with
        | Some (str, rest) => Some (c :: str, rest)
        | None => None
        end
  end.

Fixpoint span_digits (s : list ascii) : list ascii * list ascii :=
  match s with
  | c :: r =>
      if is_digit c then let '(ds, rest) := span_digits r in (c :: ds, rest)
      else ([], s)
  | [] => ([], [])
  end.

(** An integer: an optional minus sign, then [0] or digits that do not
    start with [0]. *)
Definition parse_number (s : list ascii) : option (Z * list ascii) :=
  let '(sign, r) :=
    match s with
    | c :: r => if Ascii.eqb c "-"%char then ([c], r) else ([], s)
    | [] => ([], s)
    end in
  let '(ds, rest) :=
    match r with
    | c :: r' => if Ascii.eqb c "0"%char then ([c], r') else span_digits r
    | [] => ([], [])
    end in
  match ds with
  | [] => None
  | _ => (fun d => (Z.of_int d, rest)) <$> NilZero.int_of_string (of_chars (sign ++ ds))
  end.

Fixpoint strip_prefix (p s : list ascii) : option (list ascii) :=
  match p, s with
  | [], _ => Some s
  | a :: p', b :: s' => if Ascii.eqb a b then strip_prefix p' s' else None
  | _ :: _, [] => None
  end.

(** [d[k] = v] on the entries of a dictionary. *)
Fixpoint dict_set (k : string) (v : pyval) (d : list (string * pyval)) : list (string * pyval) :=
  match d with
  | [] => [(k, v)]
  | (k', v') :: d' =>
      if String.eqb k' k then (k', v) :: d' else (k', v') :: dict_set k v d'
  end.

(** The dictionary of an object's members: a later member replaces an
    earlier one with the same key. *)
Definition dict_of_pairs (l : list (string * pyval)) : list (string * pyval) :=
  fold_left (fun d kv => dict_set (fst kv) (snd kv) d) l [].

(** The reader, by recursive descent, with [fuel] bounding the number of
    values and separators it may go through. *)
Fixpoint parse_value (fuel : nat) (s : list ascii) : option (pyval * list ascii) :=
  match fuel with
  | O => None
  | S fuel =>
      match skip_ws s with
      | [] => None
      | c :: r =>
          if Ascii.eqb c "n"%char then
            (fun r' => (PNone, r')) <$> strip_prefix (chars "ull") r
          else if Ascii.eqb c "t"%char then
            (fun r' => (PBool true, r')) <$> strip_prefix (chars "rue") r
          else if Ascii.eqb c "f"%char then
            (fun r' => (PBool false, r')) <$> strip_prefix (chars "alse") r
          else if Ascii.eqb c dquote then
            (fun sr => (PStr (of_chars (fst sr)), snd sr)) <$> parse_string_body r
          else if Ascii.eqb c "["%char then
            match skip_ws r with
            | c' :: r' =>
                if Ascii.eqb c' "]"%char then Some (PList [], r')
                else
                  match parse_value fuel r with
                  | Some (x, r1) =>
                      (fun lr => (PList (x :: fst lr), snd lr)) <$> parse_items fuel r1
                  | None => None
                  end
            | [] => None
            end
          else if Ascii.eqb c "{"%char then
            match skip_ws r with
            | c' :: r' =>
                if Ascii.eqb c' "}"%char then Some (PDict [], r')
                else
                  match parse_member fuel r with
                  | Some (kx, r1) =>
                      (fun dr => (PDict (dict_of_pairs (kx :: fst dr)), snd dr))
                        <$> parse_members fuel r1
                  | None => None
                  end
            | [] => None
            end
          else (fun zr => (PInt (fst zr), snd zr)) <$> parse_number (c :: r)
      end
  end
with parse_items (fuel : nat) (s : list ascii) : option (list pyval * list ascii) :=
  match fuel with
  | O => None
  | S fuel =>
      match skip_ws s with
      | c :: r =>
          if Ascii.eqb c "]"%char then Some ([], r)
          else if Ascii.eqb c ","%char then
            match parse_value fuel r with
            | Some (x, r1) => (fun lr => (x :: fst lr, snd lr)) <$> parse_items fuel r1
            | None => None
            end
          else None
      | [] => None
      end
  end
with parse_member (fuel : nat) (s : list ascii) : option ((string * pyval) * list ascii) :=
  match fuel with
  | O => None
  | S fuel =>
      match skip_ws s with
      | c :: r =>
          if Ascii.eqb c dquote then
            match parse_string_body r with
            | Some (k, r1) =>
                match skip_ws r1 with
                | c' :: r2 =>
                    if Ascii.eqb c' ":"%char then
                      (fun xr => ((of_chars k, fst xr), snd xr)) <$> parse_value fuel r2
                    else None
                | [] => None
                end
            | None => None
            end
          else None
      | [] => None
      end
  end
with parse_members (fuel : nat) (s : list ascii)
    : option (list (string * pyval) * list ascii) :=
  match fuel with
  | O => None
  | S fuel =>
      match skip_ws s with
      | c :: r =>
          if Ascii.eqb c "}"%char then Some ([], r)
          else if Ascii.eqb c ","%char then
            match parse_member fuel r with
            | Some (kx, r1) => (fun dr => (kx :: fst dr, snd dr)) <$> parse_members fuel r1
            | None => None
            end
          else None
      | [] => None
      end
  end.

(** Modelled from the spec: the reading of JSON text, [json.loads(text)],
    which the sources do not call: one value, with nothing but blanks after
    it. *)
Definition loads (text : string) : option pyval :=
  match parse_value (S (String.length text)) (chars text) with
  | Some (v, rest) => match skip_ws rest with [] => Some v | _ => None end
  | None => None
  end.

Definition distinct (keys : list string) : bool :=
  (fix go (l : list string) : bool :=
     match l with
     | [] => true
     | k :: l' => negb (existsb (String.eqb k) l') && go l'
     end) keys.

(** The values that are Python objects: the keys of a dictionary are
    distinct. *)
Fixpoint well_formed (v : pyval) : bool :=
  match v with
  | PList l => forallb well_formed l
  | PDict d => distinct (map fst d) && forallb (fun kx => well_formed (snd kx)) d
  | _ => true
  end.

(** A printed value is read back, whatever follows it that cannot continue
    a number, with fuel for its length. *)
Definition reads_back (v : pyval) : Prop :=
  well_formed v = true ->
  forall fuel rest,
    length (dumps v) <= fuel ->
    (forall c, head rest = Some c -> is_digit c = false) ->
    parse_value fuel (dumps v ++ rest) = Some (v, rest).

End Json.

(** ** A sample session *)

Module Sample.
Import PyStr Py Run Click Decorator.

(** The world before the command runs. *)
Definition world : World :=
  {| stdout := EmptyString; files := ∅; log := []; clients := []; network := [];
     stdin_isatty := true; stdout_isatty := true |}.

(** The program the subcommands belong to. *)
Definition program : option ParentContext := Some {| info_name := PStr "sublime" |}.

(** The configuration of a file that sets no key, and one that sets a key. *)
Definition no_key : gmap string pyval := {[ "api_key" := PStr EmptyString ]}.
Definition saved_key : gmap string pyval := {[ "api_key" := PStr "saved" ]}.

(** Text formatters, as rendered templates: the one for [enrich] starts
    and ends with an empty line. *)
Definition enrich_formatter (result : pyval) (_verbose : arg) : string :=
  nl +:+ "Subject: hello" +:+ nl +:+ nl.
Definition analyze_formatter (result : pyval) (_verbose : arg) : string :=
  "Detections: 0" +:+ nl.

Definition result : pyval :=
  PDict [("subject", PStr "hello"); ("attachments", PList []); ("size", PInt 2048)].

(** A subcommand body whose request succeeds, and one whose request fails
    with the exception [e]. *)
Definition request (w : World) : World :=
  {| stdout := stdout w; files := files w; log := log w; clients := clients w;
     network := network w ++ ["POST"];
     stdin_isatty := stdin_isatty w; stdout_isatty := stdout_isatty w |}.
Definition succeed (_ : Context) (_ : Client) : M pyval :=
  fun w => (Return result, request w).
Definition fail (e : exn) (_ : Context) (_ : Client) : M pyval :=
  fun w => (Raise e, request w).

Definition bad_file : exn :=
  RequestFailure [PInt 400; PDict [("detail", PStr "bad file")]].

(** [-i mail/message.eml], with and without [-k], [-o] and [-f]. *)
Definition options : Options :=
  {| opt_api_key := Some "secret"; opt_input := "mail/message.eml";
     opt_detections := "rules.pql"; opt_output := None; opt_format := None |}.
Definition options_no_key : Options :=
  {| opt_api_key := None; opt_input := "mail/message.eml";
     opt_detections := "rules.pql"; opt_output := None; opt_format := None |}.
Definition options_here : Options :=
  {| opt_api_key := Some "secret"; opt_input := "message.eml";
     opt_detections := "rules.pql"; opt_output := None; opt_format := Some Txt |}.
Definition options_output : Options :=
  {| opt_api_key := Some "secret"; opt_input := "mail/message.eml";
     opt_detections := "rules.pql"; opt_output := Some "out.txt"; opt_format := Some Json |}.

(** The command line, run in the sample world. *)
Definition run (a : Action) (config : gmap string pyval)
    (function : Context -> Client -> M pyval) (o : Options) : outcome unit * World :=
  run_command Json.json_formatter enrich_formatter analyze_formatter
    a config function program o world.

End Sample.

(** ** The commands that are not implemented *)

Module NotImplemented.
Import PyStr Py Run Click Decorator.
Open Scope run_scope.

(** The message of [SubcommandNotImplemented(subcommand_name)], a
    [click.ClickException]. *)
Definition SubcommandNotImplemented (subcommand_name : string) : string :=
  repr_str subcommand_name +:+ " subcommand is not implemented yet.".

(** How the callback of such a command ends when no exception of [exn]
    leaves it: it returns [None], or it raises a [click.ClickException],
    which carries its message. *)
Inductive ending :=
| Returned
| ClickException (message : string).

(** The [wrapper] of [not_implemented_command(function)]: [command_name] is
    [function.__name__], and [not_implemented] is the method of the API
    client, which is not among the sources.  Raising
    [SubcommandNotImplemented], a class that [exn] does not have, is ending
    with [ClickException]: [pass_api_client], which has no handler, hands on
    what its function raises as it hands on what it returns. *)
Definition wrapper (command_name : string)
    (not_implemented : Client -> string -> M unit) (api_client : Client) : M ending :=
  try_except (not_implemented api_client command_name ;; ret Returned)
    (fun exception =>
       match exception with
       | RequestFailure _ =>
           Some (ret (ClickException (SubcommandNotImplemented command_name)))
       | _ => None
       end).

(** [not_implemented_command(function)], invoked as the command [name]: the
    command declares no option, so [context.params] is empty. *)
Definition not_implemented_command (name command_name : string)
    (config : gmap string pyval) (not_implemented : Client -> string -> M unit)
    (parent : option ParentContext) : M ending :=
  pass_api_client config
    {| command_name := name; params := ∅; parent := parent |}
    (wrapper command_name not_implemented).

(** What [BaseCommand.main] makes of the ending: a [click.ClickException]
    is shown and the exit status is its [exit_code], which is 1. *)
Definition ending_status (r : outcome ending) : Z :=
  match r with
  | Return Returned => 0
  | Return (ClickException _) => 1
  | Raise e => exit_status (@Raise unit e)
  end.

End NotImplemented.

(** ** More sample invocations *)

Module Cases.
Import PyStr Py Run Click Decorator.

(** [-i -], the message on standard input, and [-i message.mdm]. *)
Definition options_stdin : Options :=
  {| opt_api_key := Some "secret"; opt_input := "-";
     opt_detections := "rules.pql"; opt_output := None; opt_format := None |}.
Definition options_mdm : Options :=
  {| opt_api_key := Some "secret"; opt_input := "message.mdm";
     opt_detections := "rules.pql"; opt_output := None; opt_format := Some Json |}.

(** A configuration without the [api_key] entry. *)
Definition empty_config : gmap string pyval := ∅.

(** An API method that the service refuses, and one it accepts. *)
Definition refused (_ : Client) (_ : string) : M unit :=
  fun w => (Raise (RequestFailure []), Sample.request w).
Definition accepted (_ : Client) (_ : string) : M unit :=
  fun w => (Return tt, Sample.request w).

(** An API error whose body is the text of a page, not a dictionary. *)
Definition gateway_error : exn :=
  RequestFailure [PInt 502; PStr "Bad Gateway"].

(** A text formatter that sets the subject in bold, between the ANSI codes
    [ESC[1m] and [ESC[0m], and [-o out.txt -f txt]. *)
Definition bold_formatter (result : pyval) (_verbose : arg) : string :=
  nl +:+ String ESC "[1mSubject: hello" +:+ String ESC "[0m" +:+ nl.
Definition options_text_file : Options :=
  {| opt_api_key := Some "secret"; opt_input := "mail/message.eml";
     opt_detections := "rules.pql"; opt_output := Some "out.txt"; opt_format := Some Txt |}.

End Cases.

(* ================================================================== *)
(** * Properties *)

Example splitext_eml : OsPath.splitext "message.eml" = ("message", ".eml").
Proof. reflexivity. Qed.

Example splitext_dir : OsPath.splitext "in.box/message" = ("in.box/message", "").
Proof. reflexivity. Qed.

Example splitext_hidden : OsPath.splitext "mail/.hidden" = ("mail/.hidden", "").
Proof. reflexivity. Qed.

Example splitext_two : OsPath.splitext "a/b.tar.gz" = ("a/b.tar", ".gz").
Proof. reflexivity. Qed.

Example basename_dir : OsPath.basename "mail/in/message.eml" = "message.eml".
Proof. reflexivity. Qed.

Example strip_both :
  PyStr.strip_newlines (PyStr.nl +:+ "a" +:+ PyStr.nl +:+ "b" +:+ PyStr.nl +:+ PyStr.nl)
  = "a" +:+ PyStr.nl +:+ "b".
Proof. reflexivity. Qed.

Example repr_examples :
  Py.py_repr (Py.PDict [("detail", Py.PStr "bad file"); ("n", Py.PList [Py.PInt (-12); Py.PInt 0; Py.PNone])])
  = "{'detail': 'bad file', 'n': [-12, 0, None]}"
  /\ Py.repr_str "it's" = String PyStr.dquote "it's" +:+ String PyStr.dquote EmptyString.
Proof. split; reflexivity. Qed.

Import PyStr Py Run Click Decorator.

(** ** Strings and paths *)

Section RFind.
Variable c : ascii.

Lemma rfind_bounds (s : list ascii) : (-1 <= rfind c s < Z.of_nat (length s))%Z.
Proof.
  induction s as [|x s IH]; simpl; [lia|].
  destruct (Z.leb_spec 0 (rfind c s)); [lia|].
  destruct (Ascii.eqb x c); lia.
Qed.

Lemma rfind_absent (s : list ascii) : c ∉ s -> rfind c s = (-1)%Z.
Proof.
  induction s as [|x s IH]; simpl; [done|].
  intros Hn. apply not_elem_of_cons in Hn as [Hx Hs].
  rewrite (IH Hs). simpl.
  destruct (Ascii.eqb_spec x c); congruence.
Qed.

Lemma rfind_present (s : list ascii) : c ∈ s -> (0 <= rfind c s)%Z.
Proof.
  induction s as [|x s IH]; simpl; [by intros ?%elem_of_nil|].
  intros [Heq|Hs]%elem_of_cons.
  - rewrite <- Heq. destruct (Z.leb_spec 0 (rfind c s)); [lia|]. by rewrite Ascii.eqb_refl.
  - specialize (IH Hs). destruct (Z.leb_spec 0 (rfind c s)); lia.
Qed.

Lemma rfind_app (a b : list ascii) :
  rfind c (a ++ b) =
    if (0 <=? rfind c b)%Z then (Z.of_nat (length a) + rfind c b)%Z else rfind c a.
Proof.
  induction a as [|x a IH]; simpl.
  - destruct (Z.leb_spec 0 (rfind c b)); [lia|]. pose proof (rfind_bounds b). lia.
  - rewrite IH. destruct (Z.leb_spec 0 (rfind c b)).
    + destruct (Z.leb_spec 0 (Z.of_nat (length a) + rfind c b)); lia.
    + done.
Qed.

Lemma rfind_last (a b : list ascii) : c ∉ b -> rfind c (a ++ c :: b) = Z.of_nat (length a).
Proof.
  intros Hb. rewrite rfind_app. simpl. rewrite (rfind_absent b Hb). simpl.
  rewrite Ascii.eqb_refl. simpl. lia.
Qed.

(** The last occurrence splits the string. *)
Lemma rfind_split (s : list ascii) :
  (0 <= rfind c s)%Z ->
  exists a b, s = a ++ c :: b /\ (c ∉ b) /\ rfind c s = Z.of_nat (length a).
Proof.
  induction s as [|x s IH]; simpl; [lia|].
  destruct (Z.leb_spec 0 (rfind c s)) as [Hr|Hr].
  - intros _. destruct (IH Hr) as (a & b & -> & Hb & Hlen).
    exists (x :: a), b. split; [done|]. split; [done|]. simpl length. lia.
  - destruct (Ascii.eqb_spec x c) as [->|]; [|lia]. intros _.
    exists [], s. split; [done|]. split; [|done].
    intros Hin%rfind_present. lia.
Qed.

Lemma rfind_negative (s : list ascii) : (rfind c s < 0)%Z -> c ∉ s.
Proof. intros Hr Hin%rfind_present. lia. Qed.
End RFind.

Section Paths.
Import OsPath.

Lemma has_non_dot_existsb (p : list ascii) (j n : nat) :
  has_non_dot p (Z.of_nat j) n = existsb non_dot (take n (drop j p)).
Proof.
  revert j. induction n as [|n IH]; intros j; simpl; [done|].
  rewrite Nat2Z.id.
  destruct (p !! j) as [x|] eqn:Hx.
  - rewrite (drop_S _ _ _ Hx). simpl.
    destruct (non_dot x); simpl; [done|].
    replace (Z.of_nat j + 1)%Z with (Z.of_nat (S j)) by lia. apply IH.
  - rewrite drop_ge; [done|]. by apply lookup_ge_None.
Qed.

Lemma sep_not_extsep : sep <> extsep.
Proof. discriminate. Qed.

Lemma basename_no_sep (p : list ascii) : sep ∉ p -> basename_chars p = p.
Proof. intros H. unfold basename_chars, slice_from. by rewrite rfind_absent. Qed.

Lemma basename_after_sep (d b : list ascii) :
  sep ∉ b -> basename_chars (d ++ sep :: b) = b.
Proof.
  intros H. unfold basename_chars, slice_from. rewrite rfind_last by done.
  replace (Z.to_nat (Z.of_nat (length d) + 1)) with (length d + 1)%nat by lia.
  rewrite <- drop_drop, drop_app_length. done.
Qed.

(** A path is its directory part followed by its base name. *)
Lemma basename_split (p : list ascii) :
  exists d, p = d ++ basename_chars p /\ (d = [] \/ exists d', d = d' ++ [sep]) /\
            (sep ∉ basename_chars p).
Proof.
  destruct (Z.leb_spec 0 (rfind sep p)) as [Hr|Hr].
  - destruct (rfind_split sep p Hr) as (a & b & -> & Hb & _).
    rewrite basename_after_sep by done.
    exists (a ++ [sep]). rewrite <- app_assoc. eauto.
  - apply rfind_negative in Hr. rewrite basename_no_sep by done.
    exists []. eauto.
Qed.

Lemma basename_sep_free (p : list ascii) : sep ∉ basename_chars p.
Proof. destruct (basename_split p) as (? & _ & _ & H). exact H. Qed.

(** [splitext] on a name that has no dot. *)
Lemma splitext_no_dot (p : list ascii) : extsep ∉ p -> splitext_chars p = (p, []).
Proof.
  intros H. unfold splitext_chars. rewrite (rfind_absent extsep p H).
  pose proof (rfind_bounds sep p).
  destruct (Z.ltb_spec (rfind sep p) (-1)); [lia|done].
Qed.

(** [splitext] on a base name whose last dot is at [stem ++ . ++ ext]. *)
Lemma splitext_last_dot (d stem ext : list ascii) :
  (d = [] \/ exists d', d = d' ++ [sep]) ->
  sep ∉ stem -> sep ∉ ext -> extsep ∉ ext ->
  splitext_chars (d ++ stem ++ extsep :: ext) =
    if existsb non_dot stem then (d ++ stem, extsep :: ext)
    else (d ++ stem ++ extsep :: ext, []).
Proof.
  intros Hd Hstem Hext Hdot. unfold splitext_chars.
  assert (Hsep : rfind sep (d ++ stem ++ extsep :: ext) = (Z.of_nat (length d) - 1)%Z).
  { assert (Hb : sep ∉ stem ++ extsep :: ext).
    { rewrite elem_of_app, elem_of_cons. pose proof sep_not_extsep. tauto. }
    destruct Hd as [->|[d' ->]].
    - simpl. by rewrite rfind_absent.
    - rewrite <- app_assoc. simpl. rewrite rfind_last by done.
      rewrite length_app. simpl. lia. }
  assert (Hext' : rfind extsep (d ++ stem ++ extsep :: ext)
                  = Z.of_nat (length d + length stem)).
  { rewrite app_assoc, rfind_last by done. by rewrite length_app. }
  rewrite Hsep, Hext'.
  destruct (Z.ltb_spec (Z.of_nat (length d) - 1) (Z.of_nat (length d + length stem))); [|lia].
  replace (Z.of_nat (length d) - 1 + 1)%Z with (Z.of_nat (length d)) by lia.
  replace (Z.to_nat (Z.of_nat (length d + length stem) - Z.of_nat (length d)))
    with (length stem) by lia.
  rewrite has_non_dot_existsb, drop_app_length, take_app_length.
  destruct (existsb non_dot stem); [|done].
  unfold slice_to, slice_from. rewrite Nat2Z.id.
  rewrite (app_assoc d stem), <- length_app.
  by rewrite take_app_length, drop_app_length.
Qed.

(** Either the base name has no dot, or it splits at its last dot. *)
Lemma last_dot_split (b : list ascii) :
  sep ∉ b ->
  extsep ∉ b \/
  exists stem ext, b = stem ++ extsep :: ext /\ (sep ∉ stem) /\ (sep ∉ ext) /\ (extsep ∉ ext).
Proof.
  intros Hb. destruct (Z.leb_spec 0 (rfind extsep b)) as [Hr|Hr].
  - right. destruct (rfind_split extsep b Hr) as (s & e & -> & He & _).
    exists s, e. rewrite elem_of_app, elem_of_cons in Hb. tauto.
  - left. by apply rfind_negative.
Qed.

(** The root of a path is its directory part followed by the root of its
    base name. *)
Lemma splitext_root_dir (d b : list ascii) :
  (d = [] \/ exists d', d = d' ++ [sep]) -> sep ∉ b ->
  fst (splitext_chars (d ++ b)) = d ++ fst (splitext_chars b).
Proof.
  intros Hd Hb. destruct (last_dot_split b Hb) as [Hno|(s & e & -> & Hs & He & Hdot)].
  - rewrite (splitext_no_dot b Hno). simpl.
    unfold splitext_chars.
    assert (Hlt : (rfind extsep (d ++ b) <= rfind sep (d ++ b))%Z).
    { rewrite !rfind_app. rewrite (rfind_absent extsep b Hno), (rfind_absent sep b Hb). simpl.
      destruct Hd as [->|[d' ->]]; [simpl; lia|].
      rewrite (rfind_last sep d' []) by apply not_elem_of_nil.
      pose proof (rfind_bounds extsep (d' ++ [sep])) as Hbd.
      rewrite rfind_app in Hbd |- *. simpl in *.
      pose proof (rfind_bounds extsep d'). rewrite length_app in Hbd. simpl in Hbd. lia. }
    destruct (Z.ltb_spec (rfind sep (d ++ b)) (rfind extsep (d ++ b))); [lia|done].
  - rewrite (splitext_last_dot d s e Hd Hs He Hdot).
    pose proof (splitext_last_dot [] s e (or_introl eq_refl) Hs He Hdot) as H0.
    simpl in H0. rewrite H0.
    destruct (existsb non_dot s); done.
Qed.

Lemma splitext_root_prefix (p : list ascii) :
  exists ext, p = fst (splitext_chars p) ++ ext.
Proof.
  unfold splitext_chars.
  destruct (_ <? _)%Z; [|exists []; simpl; by rewrite app_nil_r].
  destruct (has_non_dot _ _ _); [|exists []; simpl; by rewrite app_nil_r].
  eexists. simpl. unfold slice_to, slice_from. symmetry. apply take_drop.
Qed.

(** Taking the base name and stripping the extension commute. *)
Lemma basename_splitext_chars (p : list ascii) :
  basename_chars (fst (splitext_chars p)) = fst (splitext_chars (basename_chars p)).
Proof.
  destruct (basename_split p) as (d & Hp & Hd & Hb).
  set (b := basename_chars p) in *.
  rewrite Hp at 1. rewrite (splitext_root_dir d b Hd Hb).
  destruct (splitext_root_prefix b) as [ext Hext].
  assert (Hroot : sep ∉ fst (splitext_chars b)).
  { intros Hin. apply Hb. rewrite Hext. apply elem_of_app. by left. }
  destruct Hd as [->|[d' ->]].
  - simpl. by apply basename_no_sep.
  - rewrite <- app_assoc. simpl. by apply basename_after_sep.
Qed.
End Paths.

Section Strip.
Variable c : ascii.

Lemma lstrip_spec (s : list ascii) :
  exists n, s = repeat c n ++ lstrip c s /\ head (lstrip c s) <> Some c.
Proof.
  induction s as [|x s (n & Hs & Hh)]; simpl.
  - exists 0%nat. split; [done|discriminate].
  - destruct (Ascii.eqb_spec x c) as [Hx|Hx].
    + exists (S n). simpl. rewrite <- Hs. by rewrite Hx.
    + exists 0%nat. split; [done|]. simpl. congruence.
Qed.

Lemma last_rev (l : list ascii) : last (rev l) = head l.
Proof. destruct l as [|x l]; [done|]. simpl. apply last_snoc. Qed.

Lemma rstrip_spec (s : list ascii) :
  exists m, s = rstrip c s ++ repeat c m /\ last (rstrip c s) <> Some c.
Proof.
  unfold rstrip. destruct (lstrip_spec (rev s)) as (m & Hs & Hh).
  exists m. split.
  - rewrite <- (rev_involutive s), Hs at 1. rewrite rev_app_distr.
    f_equal. clear. induction m as [|m IH]; [done|]. simpl. rewrite IH.
    by rewrite repeat_cons.
  - by rewrite last_rev.
Qed.

Lemma rstrip_head (s : list ascii) : head s <> Some c -> head (rstrip c s) <> Some c.
Proof.
  intros Hs. destruct (rstrip_spec s) as (m & Heq & _).
  destruct (rstrip c s) as [|x r] eqn:Hr; [discriminate|].
  rewrite Heq in Hs. exact Hs.
Qed.

(** [strip] removes the characters [c] at both ends, all of them, and
    nothing else. *)
Lemma strip_spec (s : list ascii) :
  exists n m, s = repeat c n ++ strip c s ++ repeat c m
              /\ head (strip c s) <> Some c /\ last (strip c s) <> Some c.
Proof.
  unfold strip. destruct (lstrip_spec s) as (n & Hl & Hh).
  destruct (rstrip_spec (lstrip c s)) as (m & Hr & Hlast).
  exists n, m. split; [|split].
  - rewrite <- Hr. exact Hl.
  - by apply rstrip_head.
  - exact Hlast.
Qed.

Lemma lstrip_id (s : list ascii) : head s <> Some c -> lstrip c s = s.
Proof.
  destruct s as [|x s]; [done|]. simpl.
  destruct (Ascii.eqb_spec x c); congruence.
Qed.

Lemma strip_rstrip (s : list ascii) : head s <> Some c -> strip c s = rstrip c s.
Proof. intros H. unfold strip. by rewrite lstrip_id. Qed.

Lemma strip_absent (s : list ascii) : c ∉ s -> strip c s = s.
Proof.
  intros H. unfold strip, rstrip.
  rewrite (lstrip_id s).
  - rewrite lstrip_id; [apply rev_involutive|].
    destruct (rev s) as [|x r] eqn:Hr; [discriminate|].
    simpl. intros [= ->]. apply H. rewrite <- (rev_involutive s), Hr.
    rewrite list_elem_of_In. apply (proj1 (in_rev _ _)). by left.
  - destruct s as [|x s]; [discriminate|]. simpl. intros [= ->]. apply H. by left.
Qed.
End Strip.

Lemma chars_of_chars l : chars (of_chars l) = l.
Proof. apply list_ascii_of_string_of_list_ascii. Qed.

Lemma of_chars_chars s : of_chars (chars s) = s.
Proof. apply string_of_list_ascii_of_string. Qed.

Lemma string_app_empty_r (s : string) : s +:+ EmptyString = s.
Proof.
  induction s as [|c s IH]; [done|].
  change (String c (s +:+ EmptyString) = String c s). by rewrite IH.
Qed.

Lemma chars_app (a b : string) : chars (a +:+ b) = chars a ++ chars b.
Proof. induction a as [|x a IH]; simpl; [done|]. by rewrite IH. Qed.

Lemma of_chars_app (a b : list ascii) : of_chars (a ++ b) = of_chars a +:+ of_chars b.
Proof.
  induction a as [|x a IH]; [done|].
  change (String x (of_chars (a ++ b)) = String x (of_chars a +:+ of_chars b)).
  by rewrite IH.
Qed.

(** ** The default file name *)

Lemma fst_splitext (p : string) :
  fst (OsPath.splitext p) = of_chars (fst (OsPath.splitext_chars (chars p))).
Proof. unfold OsPath.splitext. by destruct (OsPath.splitext_chars (chars p)). Qed.

Lemma chars_basename (p : string) :
  chars (OsPath.basename p) = OsPath.basename_chars (chars p).
Proof. unfold OsPath.basename. apply chars_of_chars. Qed.

Lemma output_file_name_basename (name : string) :
  output_file_name name = fst (OsPath.splitext (OsPath.basename name)) +:+ ".mdm".
Proof.
  unfold output_file_name. f_equal.
  rewrite !fst_splitext. unfold OsPath.basename at 1.
  by rewrite chars_of_chars, basename_splitext_chars, chars_basename.
Qed.

Lemma basename_of_joined (dir base : string) :
  OsPath.sep ∉ chars base -> OsPath.basename (dir +:+ "/" +:+ base) = base.
Proof.
  intros Hbase. unfold OsPath.basename. rewrite !chars_app.
  change (chars "/") with [OsPath.sep]. simpl app.
  rewrite basename_after_sep by done. apply of_chars_chars.
Qed.

Lemma basename_of_plain (base : string) :
  OsPath.sep ∉ chars base -> OsPath.basename base = base.
Proof.
  intros Hbase. unfold OsPath.basename.
  rewrite basename_no_sep by done. apply of_chars_chars.
Qed.

Lemma output_file_name_joined (dir base : string) :
  OsPath.sep ∉ chars base ->
  output_file_name (dir +:+ "/" +:+ base) = output_file_name base.
Proof.
  intros Hbase. rewrite !output_file_name_basename.
  by rewrite basename_of_joined, basename_of_plain.
Qed.

Lemma output_file_name_sep_free (name : string) :
  OsPath.sep ∉ chars (output_file_name name).
Proof.
  rewrite output_file_name_basename, chars_app, fst_splitext, chars_of_chars, chars_basename.
  destruct (splitext_root_prefix (OsPath.basename_chars (chars name))) as [ext Hext].
  pose proof (basename_sep_free (chars name)) as Hb. rewrite Hext in Hb.
  rewrite elem_of_app in Hb |- *. intros [Hin|Hin]; [tauto|].
  revert Hin. vm_compute. intros Hin.
  repeat (apply elem_of_cons in Hin as [Hin|Hin]; [discriminate Hin|]).
  by apply elem_of_nil in Hin.
Qed.

(** The default file name is the base name of the input file's name, with
    the extension that [os.path.splitext] finds in it removed and [.mdm]
    appended: when the base name is [stem.ext], with no dot in [ext] and a
    character other than a dot in [stem], the name is [stem.mdm]; when the
    base name has no dot, [.mdm] is appended to it. *)
Lemma output_file_name_spec (name : string) :
  output_file_name name = fst (OsPath.splitext (OsPath.basename name)) +:+ ".mdm"
  /\ (forall stem ext,
        OsPath.basename name = stem +:+ "." +:+ ext ->
        OsPath.extsep ∉ chars ext ->
        existsb OsPath.non_dot (chars stem) = true ->
        output_file_name name = stem +:+ ".mdm")
  /\ (OsPath.extsep ∉ chars (OsPath.basename name) ->
      output_file_name name = OsPath.basename name +:+ ".mdm")
  /\ (OsPath.sep ∉ chars name ->
      output_file_name name = fst (OsPath.splitext name) +:+ ".mdm")
  /\ output_file_name "message.eml" = "message.mdm".
Proof.
  split; [apply output_file_name_basename|]. split; [|split; [|split]].
  - intros stem ext Hname Hext Hstem. rewrite output_file_name_basename. f_equal.
    rewrite fst_splitext, Hname, !chars_app.
    change (chars ".") with [OsPath.extsep]. simpl app.
    pose proof (basename_sep_free (chars name)) as Hb.
    rewrite <- chars_basename, Hname, !chars_app in Hb.
    change (chars ".") with [OsPath.extsep] in Hb. simpl app in Hb.
    rewrite elem_of_app, elem_of_cons in Hb.
    pose proof (splitext_last_dot [] (chars stem) (chars ext) (or_introl eq_refl)) as Hs.
    simpl app in Hs. rewrite Hs by tauto. rewrite Hstem. simpl. apply of_chars_chars.
  - intros Hno. rewrite output_file_name_basename. f_equal.
    rewrite fst_splitext, splitext_no_dot by done. apply of_chars_chars.
  - intros Hno. rewrite output_file_name_basename. by rewrite basename_of_plain.
  - reflexivity.
Qed.

(** ** ANSI codes *)

Section Ansi.

Lemma ansi_tail_bound (s : list ascii) (n : nat) :
  ansi_tail s = Some n -> 1 <= n <= length s.
Proof.
  revert n. induction s as [|c s IH]; intros n; simpl; [done|].
  destruct (ansi_parameter c).
  - destruct (ansi_tail s) as [m|]; [|done]. intros [= <-].
    specialize (IH m eq_refl). lia.
  - destruct (ansi_letter c); [|done]. intros [= <-]. lia.
Qed.

Lemma ansi_match_bound (s : list ascii) (n : nat) :
  ansi_match s = Some n -> 3 <= n <= length s.
Proof.
  destruct s as [|e [|b s]]; simpl; [done|done|].
  destruct (_ && _); [|done].
  destruct (ansi_tail s) as [m|] eqn:Hm; [|done]. intros [= <-].
  apply ansi_tail_bound in Hm. simpl. lia.
Qed.

Lemma ansi_match_head (s : list ascii) (n : nat) :
  ansi_match s = Some n -> head s = Some ESC.
Proof.
  destruct s as [|e [|b s]]; simpl; [done|done|].
  destruct (Ascii.eqb_spec e ESC) as [->|]; [done|]. by rewrite andb_false_l.
Qed.

Lemma sub_ansi_cons (c : ascii) (s : list ascii) :
  sub_ansi 0 (c :: s) =
    match ansi_match (c :: s) with
    | Some len => sub_ansi (len - 1) s
    | None => c :: sub_ansi 0 s
    end.
Proof. reflexivity. Qed.

(** A text without the escape character has no code to take out. *)
Lemma sub_ansi_no_esc (s : list ascii) : ESC ∉ s -> sub_ansi 0 s = s.
Proof.
  induction s as [|c s IH]; [done|]. intros Hs.
  rewrite sub_ansi_cons. rewrite not_elem_of_cons in Hs. destruct Hs as [Hc Hs].
  destruct (ansi_match (c :: s)) as [n|] eqn:Hm.
  - apply ansi_match_head in Hm. simpl in Hm. congruence.
  - by rewrite IH.
Qed.

Lemma strip_ansi_no_esc (s : string) : ESC ∉ chars s -> strip_ansi s = s.
Proof. intros H. unfold strip_ansi. rewrite sub_ansi_no_esc by done. apply of_chars_chars. Qed.

Lemma ansi_tail_newline (s : list ascii) : ansi_tail (s ++ [newline]) = ansi_tail s.
Proof.
  induction s as [|c s IH]; [reflexivity|]. simpl. by rewrite IH.
Qed.

Lemma ansi_match_newline (s : list ascii) : ansi_match (s ++ [newline]) = ansi_match s.
Proof.
  destruct s as [|e [|b s]]; simpl.
  - reflexivity.
  - by rewrite andb_false_r.
  - by rewrite ansi_tail_newline.
Qed.

Lemma sub_ansi_newline (k : nat) (s : list ascii) :
  k <= length s -> sub_ansi k (s ++ [newline]) = sub_ansi k s ++ [newline].
Proof.
  revert k. induction s as [|c s IH]; intros k Hk.
  - simpl in Hk. by replace k with 0 by lia.
  - destruct k as [|k].
    + change ((c :: s) ++ [newline]) with (c :: (s ++ [newline])).
      rewrite !sub_ansi_cons.
      change (c :: (s ++ [newline])) with ((c :: s) ++ [newline]).
      rewrite ansi_match_newline.
      destruct (ansi_match (c :: s)) as [n|] eqn:Hm.
      * apply ansi_match_bound in Hm. simpl in Hm. apply IH. lia.
      * simpl. f_equal. apply IH. lia.
    + simpl. apply IH. simpl in Hk. lia.
Qed.

(** What is left of a match to pass is passed. *)
Lemma sub_ansi_skip (k : nat) (s : list ascii) : sub_ansi k s = sub_ansi 0 (drop k s).
Proof.
  revert k. induction s as [|c s IH]; intros [|k]; try reflexivity.
  simpl. apply IH.
Qed.

Lemma ansi_letter_parameter (c : ascii) : ansi_letter c = true -> ansi_parameter c = false.
Proof.
  destruct c as [[] [] [] [] [] [] [] []]; vm_compute;
    first [discriminate | intros _; reflexivity].
Qed.

Lemma ansi_tail_run (ps : list ascii) (l : ascii) (rest : list ascii) :
  forallb ansi_parameter ps = true -> ansi_letter l = true ->
  ansi_tail (ps ++ l :: rest) = Some (S (length ps)).
Proof.
  intros Hps Hl. induction ps as [|p ps IH]; simpl.
  - by rewrite (ansi_letter_parameter l Hl), Hl.
  - simpl in Hps. apply andb_true_iff in Hps as [Hp Hps]. by rewrite Hp, (IH Hps).
Qed.

(** A code, which is the escape character, a bracket, parameter characters
    and a letter, is taken out, and the search goes on after it. *)
Lemma sub_ansi_code (ps : list ascii) (l : ascii) (rest : list ascii) :
  forallb ansi_parameter ps = true -> ansi_letter l = true ->
  sub_ansi 0 (ESC :: "["%char :: ps ++ l :: rest) = sub_ansi 0 rest.
Proof.
  intros Hps Hl. rewrite sub_ansi_cons.
  change (ansi_match (ESC :: "["%char :: ps ++ l :: rest))
    with ((fun n => S (S n)) <$> ansi_tail (ps ++ l :: rest)).
  rewrite (ansi_tail_run ps l rest Hps Hl). cbn [fmap option_fmap option_map].
  rewrite sub_ansi_skip. f_equal.
  replace (S (S (S (length ps))) - 1) with (S (length ps + 1)) by lia.
  change (drop (S (length ps + 1)) ("["%char :: ps ++ l :: rest))
    with (drop (length ps + 1) (ps ++ l :: rest)).
  rewrite <- drop_drop, drop_app_length. reflexivity.
Qed.

(** The newline that [click.echo] adds stays: it belongs to no code. *)
Lemma strip_ansi_newline (s : string) : strip_ansi (s +:+ nl) = strip_ansi s +:+ nl.
Proof.
  unfold strip_ansi. rewrite chars_app. change (chars nl) with [newline].
  rewrite sub_ansi_newline by lia. by rewrite of_chars_app.
Qed.

End Ansi.

Section NoEscape.

Lemma forallb_not_elem (c : ascii) (l : list ascii) :
  forallb (fun x => negb (Ascii.eqb x c)) l = true -> c ∉ l.
Proof.
  induction l as [|x l IH]; simpl; [intros _; apply not_elem_of_nil|].
  intros [Hx Hl]%andb_true_iff. apply not_elem_of_cons. split; [|by apply IH].
  intros ->. by rewrite Ascii.eqb_refl in Hx.
Qed.

Lemma repr_char_no_esc (q c : ascii) :
  q = squote \/ q = dquote -> ESC ∉ repr_char q c.
Proof.
  intros Hq. apply forallb_not_elem.
  destruct Hq as [->| ->]; destruct c as [[] [] [] [] [] [] [] []]; reflexivity.
Qed.

(** [repr] writes the escape character as [\x1b]. *)
Lemma repr_str_no_esc (s : string) : ESC ∉ chars (repr_str s).
Proof.
  unfold repr_str. rewrite chars_of_chars.
  set (q := if contains squote s && negb (contains dquote s) then dquote else squote).
  assert (Hq : q = squote \/ q = dquote) by (subst q; destruct (contains squote s && negb (contains dquote s)); auto).
  assert (Hne : ESC <> q) by (destruct Hq as [->| ->]; discriminate).
  rewrite not_elem_of_cons, not_elem_of_app, not_elem_of_cons.
  split; [done|]. split; [|split; [done|apply not_elem_of_nil]].
  intros Hin. apply list_elem_of_In, in_concat in Hin as (l & Hl & Hin).
  apply in_map_iff in Hl as (c & <- & _).
  by apply (repr_char_no_esc q c Hq), list_elem_of_In.
Qed.

(** The text about the missing key has no ANSI code, whatever the name of
    the program. *)
Lemma api_key_not_found_no_esc (prog_name : pyval) :
  ESC ∉ chars (api_key_not_found prog_name +:+ nl).
Proof.
  unfold api_key_not_found. rewrite !chars_app, !not_elem_of_app.
  pose proof (repr_str_no_esc (py_str prog_name +:+ " setup")) as Hrepr.
  repeat split; try exact Hrepr; by apply forallb_not_elem.
Qed.

End NoEscape.

(** ** The commands *)

Section Pipeline.
Context {Response : Type}.
Variables json_formatter enrich_formatter analyze_formatter : @formatter Response.
Variable config : gmap string pyval.
Variable function : Context -> Client -> M Response.

Abbreviation run := (run_command json_formatter enrich_formatter analyze_formatter).
Abbreviation echo_result := (echo_result json_formatter enrich_formatter analyze_formatter).
Abbreviation primary := (primary_output json_formatter enrich_formatter analyze_formatter).

Lemma run_command_wrapper a parent o :
  run a config function parent o =
    wrapper json_formatter enrich_formatter analyze_formatter config function (context_of a parent o).
Proof. by destruct a. Qed.

Lemma params_api_key a parent o :
  dict_get (params (context_of a parent o)) "api_key" (AVal PNone)
  = optional ((fun k => AVal (PStr k)) <$> opt_api_key o).
Proof. by destruct a. Qed.

Lemma params_output_file a parent o dflt :
  dict_get (params (context_of a parent o)) "output_file" dflt
  = optional ((fun f => AFile (File_w f)) <$> opt_output o).
Proof. by destruct a. Qed.

Lemma params_output_format a parent o :
  params (context_of a parent o) !! "output_format"
  = Some (AVal (PStr (format_name (default Txt (opt_format o))))).
Proof. by destruct a. Qed.

Lemma params_verbose a parent o dflt :
  dict_get (params (context_of a parent o)) "verbose" dflt = dflt.
Proof. by destruct a. Qed.

Lemma params_input_file a parent o :
  input_file_name (params (context_of a parent o)) = ret (file_name (File_r (opt_input o))).
Proof. by destruct a. Qed.

(** With credentials, [pass_api_client] constructs one client and calls on. *)
Lemma pass_api_client_credentials {A} a parent o key (f : Client -> M A) w :
  credentials config o = Some key ->
  pass_api_client config (context_of a parent o) f w
  = f {| client_api_key := key |} (with_client key w).
Proof.
  unfold credentials, pass_api_client. rewrite params_api_key.
  destruct (opt_api_key o) as [k|]; simpl.
  - intros [= <-]. reflexivity.
  - unfold dict_getitem, bind. destruct (config !! "api_key") as [v|]; [|done].
    unfold ret. cbv beta iota. destruct (truthy v) eqn:Hv; [|done]. intros [= <-]. reflexivity.
Qed.

Lemma output_file_name_not_dash name : String.eqb (output_file_name name) "-" = false.
Proof.
  unfold output_file_name.
  destruct (OsPath.basename _) as [|c [|c' r]]; simpl; try done.
  - destruct (Ascii.eqb c "-"); done.
  - destruct (Ascii.eqb c "-"); done.
Qed.

Lemma bind_step {A B} (c : M A) (k : A -> M B) w a w' :
  c w = (Return a, w') -> bind c k w = k a w'.
Proof. intros H. unfold bind. by rewrite H. Qed.

Lemma bind_fail {A B} (c : M A) (k : A -> M B) w e w' :
  c w = (Raise e, w') -> bind c k w = (Raise e, w').
Proof. intros H. unfold bind. by rewrite H. Qed.

Lemma bind_ret_tt (c : M unit) w : bind c (fun _ => ret tt) w = c w.
Proof. unfold bind, ret. by destruct (c w) as [[[]|e] w']. Qed.

Ltac run_steps := repeat (erewrite bind_step by reflexivity; cbv beta).

Lemma write_opened (name text : string) (w : World) :
  (mdm <- open_file name ;; echo text (AFile mdm)) w =
    if String.eqb name "-"
    then (Return tt, set_stdout (fun out => out +:+ echoed (stdout_isatty w) text) w)
    else (Return tt, set_files (fun fs => <[name := echoed false text]> fs) w).
Proof.
  unfold open_file, echo, echo_message, should_strip_ansi, echoed, bind.
  destruct (String.eqb name "-"); simpl.
  - by destruct (stdout_isatty w).
  - unfold modify, set_files. simpl. rewrite lookup_insert_eq, insert_insert_eq.
    done.
Qed.

(** [click.echo] on the file of the [-o] option. *)
Lemma echo_File_w (path text : string) (w : World) :
  echo text (AFile (File_w path)) w =
    (Return tt,
     if String.eqb path "-"
     then set_stdout (fun out => out +:+ echoed (stdout_isatty w) text) w
     else set_files (fun fs => <[path := echoed false text]> fs) w).
Proof.
  unfold File_w, echo, echo_message, should_strip_ansi, echoed, bind.
  destruct (String.eqb path "-"); simpl; [|done].
  by destruct (stdout_isatty w).
Qed.

Lemma echo_none (text : string) (w : World) :
  echo text (AVal PNone) w =
    (Return tt, set_stdout (fun out => out +:+ echoed (stdout_isatty w) text) w).
Proof.
  unfold echo, echo_message, should_strip_ansi, echoed, bind. simpl.
  by destruct (stdout_isatty w).
Qed.

(** A message without the escape character is written as it is. *)
Lemma echoed_no_esc (terminal : bool) (message : string) :
  ESC ∉ chars (message +:+ nl) -> echoed terminal message = message +:+ nl.
Proof.
  intros H. unfold echoed. destruct terminal; [done|]. by apply strip_ansi_no_esc.
Qed.

(** The three statements of [pass_api_client] that tell of the missing
    key. *)
Lemma show_api_key_not_found {A} (ctx : Context) (p : ParentContext) (w : World) :
  parent ctx = Some p ->
  (prog_name <- parent_info_name ctx ;;
   echo (api_key_not_found prog_name) (AVal PNone) ;; @exit A (-1)) w
  = (Raise (Exit (-1)),
     set_stdout (fun out => out +:+ api_key_not_found (info_name p) +:+ nl) w).
Proof.
  intros Hp. unfold parent_info_name. rewrite Hp.
  erewrite bind_step by reflexivity.
  rewrite (bind_step _ _ _ _ _ (echo_none _ _)).
  by rewrite echoed_no_esc by apply api_key_not_found_no_esc.
Qed.


(** What [echo_result] does with a result. *)
Lemma echo_result_success a parent o (function0 : M Response) result w w1 :
  function0 w = (Return result, w1) ->
  echo_result (context_of a parent o) function0 w =
    match opt_output o with
    | Some path =>
        echo (primary_output json_formatter enrich_formatter analyze_formatter a o result)
          (AFile (File_w path)) w1
    | None =>
        let w2 := set_stdout (fun out => out +:+
                    echoed (stdout_isatty w1)
                      (primary_output json_formatter enrich_formatter analyze_formatter
                         a o result)) w1 in
        match a with
        | Enrich =>
            (Return tt,
             set_files (fun fs => <[output_file_name (file_name (File_r (opt_input o))) :=
                                      echoed false (json_output json_formatter result)]> fs) w2)
        | Analyze => (Return tt, w2)
        end
    end.
Proof.
  intros Hf. unfold echo_result.
  rewrite (bind_step _ _ _ _ _ Hf). clear Hf.
  unfold primary_output, json_output, selected_formatter, echoed.
  destruct w1 as [out fs l cs net tty_in tty_out]; cbn [stdout_isatty].
  destruct o as [k i d [path|] fmt]; destruct a, fmt as [[]|], tty_out;
    cbn [opt_output opt_format opt_input default].
  all: run_steps.
  all: rewrite ?params_output_file, ?params_verbose; cbn [opt_output optional fmap option_fmap option_map].
  all: try (cbn [arg_truthy negb andb]; rewrite ?andb_false_r; apply bind_ret_tt).
  all: run_steps.
  all: try reflexivity.
  all: rewrite params_input_file; run_steps.
  all: simpl (andb _ _); cbv iota; cbn [opt_input].
  all: run_steps.
  all: try reflexivity.
  all: rewrite write_opened, output_file_name_not_dash; reflexivity.
Qed.


Lemma echo_result_raise ctx (function0 : M Response) e w w1 :
  function0 w = (Raise e, w1) -> echo_result ctx function0 w = (Raise e, w1).
Proof. intros H. unfold echo_result. by rewrite (bind_fail _ _ _ _ _ H). Qed.

Section Handler.
Context {A : Type} (function0 : M A).

Lemma handle_exceptions_return a w w1 :
  function0 w = (Return a, w1) -> handle_exceptions function0 w = (Return a, w1).
Proof. intros H. unfold handle_exceptions, try_except. by rewrite H. Qed.

Lemma handle_exceptions_other e w w1 :
  remote_failure e = false ->
  function0 w = (Raise e, w1) -> handle_exceptions function0 w = (Raise e, w1).
Proof.
  intros He H. unfold handle_exceptions, try_except. rewrite H.
  by destruct e.
Qed.

Lemma handle_exceptions_detail e detail w w1 :
  function0 w = (Raise e, w1) -> error_detail e = Some detail ->
  handle_exceptions function0 w
  = (Raise (Exit (-1)), set_log (fun l => l ++ ["API error: " +:+ detail]) w1).
Proof.
  intros H Hd. unfold handle_exceptions, try_except. rewrite H.
  destruct e as [args|message| | | | | |]; try discriminate Hd.
  - simpl in Hd. unfold tuple_getitem.
    destruct (args !! 1%nat) as [[| | | | |body]|]; try discriminate Hd.
    erewrite bind_step by reflexivity. cbv beta. unfold subscript.
    destruct (assoc "detail" body) as [v|]; [|discriminate Hd].
    injection Hd as <-. reflexivity.
  - injection Hd as <-. reflexivity.
Qed.

(** The handler of an API error, on the payload [args]. *)
Lemma handle_exceptions_request_failure args w w1 :
  function0 w = (Raise (RequestFailure args), w1) ->
  handle_exceptions function0 w =
    match args !! 1%nat with
    | None => (Raise IndexError, w1)
    | Some (PDict body) =>
        match assoc "detail" body with
        | Some detail =>
            (Raise (Exit (-1)),
             set_log (fun l => l ++ ["API error: " +:+ py_str detail]) w1)
        | None => (Raise (KeyError (AVal (PStr "detail"))), w1)
        end
    | Some _ => (Raise TypeError, w1)
    end.
Proof.
  intros H. unfold handle_exceptions, try_except. rewrite H.
  unfold tuple_getitem.
  destruct (args !! 1%nat) as [[| | | | |body]|]; try reflexivity.
  erewrite bind_step by reflexivity. cbv beta. unfold subscript.
  destruct (assoc "detail" body) as [v|]; reflexivity.
Qed.
(** C6.  [handle_exceptions] intercepts exactly two classes of exception, the
    API error responses and the transport failures: such an exception never
    leaves the handler as itself, and when it carries a detail the handler
    logs one message and exits with status -1.  Every other exception leaves
    the handler as it was raised, with nothing logged.  In every case the
    wrapped function has run once: what the handler leaves behind is the
    world the function left, but for at most one log message. *)
Theorem handle_exceptions_two_categories (w : World) :
  let '(r, w1) := function0 w in
  let '(r', w') := handle_exceptions function0 w in
  (stdout w' = stdout w1 /\ files w' = files w1 /\ clients w' = clients w1
   /\ network w' = network w1
   /\ (log w' = log w1 \/ exists message, log w' = log w1 ++ [message]))
  /\ match r with
     | Return a => r' = Return a /\ w' = w1
     | Raise e =>
         if remote_failure e then
           r' <> Raise e
           /\ (forall detail, error_detail e = Some detail ->
                 r' = Raise (Exit (-1))
                 /\ w' = set_log (fun l => l ++ ["API error: " +:+ detail]) w1)
         else r' = Raise e /\ w' = w1
     end.
Proof.
  destruct (function0 w) as [[a|e] w1] eqn:Hf.
  - rewrite (handle_exceptions_return a w w1 Hf). auto 10.
  - destruct (remote_failure e) eqn:He.
    + destruct e as [args|message| | | | | |]; try discriminate He.
      * rewrite (handle_exceptions_request_failure args w w1 Hf).
        simpl error_detail.
        destruct (args !! 1%nat) as [[| | | | |body]|];
          try (split; [auto 10|split; discriminate]).
        destruct (assoc "detail" body) as [detail|]; simpl.
        { split; [eauto 10|]. split; [discriminate|]. by intros ? [= <-]. }
        { split; [auto 10|split; discriminate]. }
      * rewrite (handle_exceptions_detail _ message w w1 Hf eq_refl).
        simpl. split; [eauto 10|]. split; [discriminate|].
        by intros detail [= <-].
    + rewrite (handle_exceptions_other e w w1 He Hf). auto 10.
Qed.

(** C9.  The handler of an API error reads [args[1]["detail"]] unguarded: with
    fewer than two arguments it raises [IndexError], with a dictionary that
    lacks the key it raises [KeyError], and in both cases nothing is logged.
    It logs and exits with status -1 exactly when the second argument is a
    dictionary that has the key [detail]. *)
Theorem api_error_payload_precondition (args : list pyval) (w w1 : World) :
  function0 w = (Raise (RequestFailure args), w1) ->
  let well_formed :=
    exists body detail, args !! 1%nat = Some (PDict body) /\ assoc "detail" body = Some detail in
  (length args < 2 -> handle_exceptions function0 w = (Raise IndexError, w1))
  /\ (forall body, args !! 1%nat = Some (PDict body) -> assoc "detail" body = None ->
        handle_exceptions function0 w = (Raise (KeyError (AVal (PStr "detail"))), w1))
  /\ (fst (handle_exceptions function0 w) = Raise (Exit (-1)) <-> well_formed)
  /\ (log (snd (handle_exceptions function0 w)) <> log w1 <-> well_formed).
Proof.
  intros Hf well_formed. subst well_formed.
  rewrite (handle_exceptions_request_failure args w w1 Hf).
  split; [|split; [|split]].
  - intros Hlen. by rewrite (lookup_ge_None_2 args 1) by lia.
  - intros body -> ->. reflexivity.
  - destruct (args !! 1%nat) as [[| | | | |body]|]; simpl;
      try (split; [discriminate|intros (? & ? & [=] & _)]).
    destruct (assoc "detail" body) as [detail|] eqn:Hd; simpl.
    + split; [eauto|done].
    + split; [discriminate|]. intros (? & ? & [= <-] & ?). congruence.
  - destruct (args !! 1%nat) as [[| | | | |body]|]; simpl;
      try (split; [done|intros (? & ? & [=] & _)]).
    destruct (assoc "detail" body) as [detail|] eqn:Hd; simpl.
    + split; [eauto|]. intros _ Heq.
      apply (f_equal length) in Heq. rewrite length_app in Heq. simpl in Heq. lia.
    + split; [done|]. intros (? & ? & [= <-] & ?). congruence.
Qed.

End Handler.

(** With credentials, a command runs [echo_result] over the handled call,
    in the world where the client exists. *)
Lemma run_command_credentials a parent o key w :
  credentials config o = Some key ->
  run a config function parent o w =
    echo_result (context_of a parent o)
      (handle_exceptions (function (context_of a parent o) {| client_api_key := key |}))
      (with_client key w).
Proof.
  intros Hkey. rewrite run_command_wrapper. unfold wrapper.
  by rewrite (pass_api_client_credentials a parent o key _ w Hkey).
Qed.

Lemma run_command_success a parent o key result w w1 :
  credentials config o = Some key ->
  function (context_of a parent o) {| client_api_key := key |} (with_client key w)
  = (Return result, w1) ->
  run a config function parent o w =
    match opt_output o with
    | Some path => echo (primary a o result) (AFile (File_w path)) w1
    | None =>
        let w2 := set_stdout (fun out => out +:+
                    echoed (stdout_isatty w1) (primary a o result)) w1 in
        match a with
        | Enrich =>
            (Return tt,
             set_files (fun fs => <[output_file_name (file_name (File_r (opt_input o))) :=
                                      echoed false (json_output json_formatter result)]> fs) w2)
        | Analyze => (Return tt, w2)
        end
    end.
Proof.
  intros Hkey Hf. rewrite (run_command_credentials a parent o key w Hkey).
  apply echo_result_success. by apply handle_exceptions_return.
Qed.

(** C1.  An [enrich] invocation without [-o] whose remote call succeeds
    writes the result, in the selected format, to standard output, and
    writes the JSON form of the same result to the default file, whatever
    the selected format is.  Each text is written as [click.echo] writes
    it: with a newline after it, and without its ANSI codes unless it goes
    to a terminal. *)
Theorem enrich_dual_write parent o key result w w1 :
  opt_output o = None ->
  credentials config o = Some key ->
  function (context_of Enrich parent o) {| client_api_key := key |} (with_client key w)
  = (Return result, w1) ->
  run Enrich config function parent o w =
    (Return tt,
     set_files (fun fs => <[output_file_name (file_name (File_r (opt_input o))) :=
                              echoed false (json_output json_formatter result)]> fs)
       (set_stdout (fun out => out +:+ echoed (stdout_isatty w1) (primary Enrich o result))
          w1)).
Proof.
  intros Hout Hkey Hf.
  rewrite (run_command_success Enrich parent o key result w w1 Hkey Hf).
  by rewrite Hout.
Qed.

(** C4.  An [enrich] invocation with [-o] whose remote call succeeds writes
    one output, in the selected format, to the given file (standard output
    for [-]), and touches no other file: no MDM copy is made. *)
Theorem enrich_explicit_output parent o path key result w w1 :
  opt_output o = Some path ->
  credentials config o = Some key ->
  function (context_of Enrich parent o) {| client_api_key := key |} (with_client key w)
  = (Return result, w1) ->
  let text := primary Enrich o result in
  let w' := if String.eqb path "-"
            then set_stdout (fun out => out +:+ echoed (stdout_isatty w1) text) w1
            else set_files (fun fs => <[path := echoed false text]> fs) w1 in
  run Enrich config function parent o w = (Return tt, w')
  /\ (forall name, name <> path -> files w' !! name = files w1 !! name).
Proof.
  intros Hout Hkey Hf text w'. subst text w'.
  rewrite (run_command_success Enrich parent o key result w w1 Hkey Hf), Hout.
  split; [apply echo_File_w|].
  intros name Hne. destruct (String.eqb path "-"); simpl; [done|].
  by rewrite lookup_insert_ne.
Qed.

(** C3.  When the remote call raises a remote failure that carries a detail
    (a transport failure, or an API error whose body has a [detail]), the
    command logs a message that contains the detail and exits with status
    -1, which is not zero; it writes nothing to standard output or to any
    file. *)
Theorem remote_failure_logged a parent o key e detail w w1 :
  credentials config o = Some key ->
  function (context_of a parent o) {| client_api_key := key |} (with_client key w)
  = (Raise e, w1) ->
  error_detail e = Some detail ->
  let message := "API error: " +:+ detail in
  let w' := set_log (fun l => l ++ [message]) w1 in
  run a config function parent o w = (Raise (Exit (-1)), w')
  /\ occurs_in detail message
  /\ exit_status (fst (run a config function parent o w)) <> 0%Z
  /\ stdout w' = stdout w1 /\ files w' = files w1.
Proof.
  intros Hkey Hf Hd message w'. subst message w'.
  assert (Hrun : run a config function parent o w
                 = (Raise (Exit (-1)), set_log (fun l => l ++ ["API error: " +:+ detail]) w1)).
  { rewrite (run_command_credentials a parent o key w Hkey).
    apply echo_result_raise. by apply handle_exceptions_detail with (e := e). }
  rewrite Hrun. split; [done|]. split.
  - exists "API error: ", EmptyString. by rewrite string_app_empty_r.
  - done.
Qed.

(** C2.  Without [-k] and without a true key in the configuration, no client
    is constructed and nothing is sent: the command ends with a status that
    is not zero, having touched neither the files nor the log.  When the
    configuration has its [api_key] entry, and the command runs under the
    program's group, it prints the text that says the API key was not found
    and exits with status -1. *)
Theorem missing_api_key a parent o w :
  opt_api_key o = None ->
  (forall key, config !! "api_key" = Some key -> truthy key = false) ->
  let '(r, w') := run a config function parent o w in
  clients w' = clients w /\ network w' = network w
  /\ files w' = files w /\ log w' = log w
  /\ exit_status r <> 0%Z
  /\ (forall key p, config !! "api_key" = Some key -> parent = Some p ->
        r = Raise (Exit (-1))
        /\ stdout w' = stdout w +:+ api_key_not_found (info_name p) +:+ nl
        /\ occurs_in "API key not found" (api_key_not_found (info_name p))).
Proof.
  intros Hflag Hconfig. rewrite run_command_wrapper. unfold wrapper, pass_api_client.
  rewrite params_api_key, Hflag. cbn [fmap option_fmap option_map optional default].
  unfold bind at 1 2. unfold dict_getitem at 1.
  destruct (config !! "api_key") as [key|] eqn:Hkey.
  - specialize (Hconfig key eq_refl). unfold ret at 1. cbv beta iota.
    unfold bind at 1. rewrite Hconfig. cbn [negb].
    destruct parent as [p|].
    + rewrite (show_api_key_not_found (context_of a (Some p) o) p w eq_refl). cbn.
      do 5 (split; [done|]). intros key' p' _ [= <-]. split; [done|]. split; [done|].
      exists (nl +:+ "Error: "). eexists. reflexivity.
    + cbn. do 5 (split; [done|]). intros key' p' _ [=].
  - cbn. do 5 (split; [done|]). intros key' p' [=].
Qed.

Lemma strip_newlines_spec (text : string) :
  (exists n m, chars text = repeat newline n ++ chars (strip_newlines text) ++ repeat newline m)
  /\ head (chars (strip_newlines text)) <> Some newline
  /\ last (chars (strip_newlines text)) <> Some newline
  /\ (head (chars text) <> Some newline -> strip_newlines text = rstrip_newlines text).
Proof.
  unfold strip_newlines, rstrip_newlines. rewrite chars_of_chars.
  destruct (strip_spec newline (chars text)) as (n & m & Heq & Hh & Hl).
  split; [eauto|]. split; [done|]. split; [done|].
  intros Hhead. by rewrite strip_rstrip.
Qed.

(** C5.  An [enrich] invocation without [-o] writes its JSON copy to the file
    named after the input file's name: its base name, with the extension
    that [os.path.splitext] finds in it removed and [.mdm] appended.  When
    the base name is [stem.ext], with no dot in [ext] and a character other
    than a dot in [stem], that is [stem.mdm]; when the base name has no dot,
    [.mdm] is appended to it; and when the name has no directory part, it is
    the name itself whose extension is replaced. *)
Theorem default_file_name_strips_extension parent o key result w w1 :
  opt_output o = None ->
  credentials config o = Some key ->
  function (context_of Enrich parent o) {| client_api_key := key |} (with_client key w)
  = (Return result, w1) ->
  let name := file_name (File_r (opt_input o)) in
  let mdm := fst (OsPath.splitext (OsPath.basename name)) +:+ ".mdm" in
  (exists w', run Enrich config function parent o w = (Return tt, w')
     /\ files w' = <[mdm := echoed false (json_output json_formatter result)]> (files w1))
  /\ (forall stem ext,
        OsPath.basename name = stem +:+ "." +:+ ext ->
        OsPath.extsep ∉ chars ext ->
        existsb OsPath.non_dot (chars stem) = true ->
        mdm = stem +:+ ".mdm")
  /\ (OsPath.extsep ∉ chars (OsPath.basename name) -> mdm = OsPath.basename name +:+ ".mdm")
  /\ (OsPath.sep ∉ chars name -> mdm = fst (OsPath.splitext name) +:+ ".mdm").
Proof.
  intros Hout Hkey Hf name mdm.
  destruct (output_file_name_spec name) as (Hname & Hstem & Hplain & Hhere & _).
  fold mdm in Hname. rewrite Hname in Hstem, Hplain, Hhere.
  split; [|by repeat split].
  rewrite (run_command_success Enrich parent o key result w w1 Hkey Hf), Hout.
  fold name. rewrite Hname. eexists. split; reflexivity.
Qed.

(** C7, as the code has it.  On success the text given to [click.echo] is
    the output of the selected formatter without the newline characters at
    its start and at its end, all of them and nothing else; it is the text
    stripped at the end only when the formatter's output does not start
    with a newline.  What reaches the output is that text as [click.echo]
    writes it: on a terminal the text and one newline, elsewhere the text
    without its ANSI codes and one newline, and so the text and one newline
    wherever the text has no escape character. *)
Theorem output_is_stripped_at_both_ends a parent o key result w w1 :
  credentials config o = Some key ->
  function (context_of a parent o) {| client_api_key := key |} (with_client key w)
  = (Return result, w1) ->
  let text := selected_formatter json_formatter enrich_formatter analyze_formatter
                a (default Txt (opt_format o)) result (AVal (PBool false)) in
  let output := strip_newlines text in
  (exists w', run a config function parent o w = (Return tt, w')
     /\ match opt_output o with
        | None => stdout w' = stdout w1 +:+ echoed (stdout_isatty w1) output
        | Some path =>
            if String.eqb path "-"
            then stdout w' = stdout w1 +:+ echoed (stdout_isatty w1) output
            else files w' !! path = Some (echoed false output)
        end)
  /\ echoed true output = output +:+ nl
  /\ echoed false output = strip_ansi output +:+ nl
  /\ (ESC ∉ chars output -> forall terminal, echoed terminal output = output +:+ nl)
  /\ (exists n m, chars text = repeat newline n ++ chars output ++ repeat newline m)
  /\ head (chars output) <> Some newline
  /\ last (chars output) <> Some newline
  /\ (head (chars text) <> Some newline -> output = rstrip_newlines text).
Proof.
  intros Hkey Hf text output.
  split; [|split; [reflexivity|split; [apply strip_ansi_newline|split]]].
  - rewrite (run_command_success a parent o key result w w1 Hkey Hf).
    fold text. change (primary a o result) with output.
    destruct (opt_output o) as [path|].
    + rewrite echo_File_w. eexists. split; [reflexivity|].
      destruct (String.eqb path "-"); simpl; [done|]. apply lookup_insert_eq.
    + destruct a; eexists; (split; [reflexivity|done]).
  - intros Hesc [|]; [reflexivity|].
    unfold echoed. rewrite strip_ansi_newline. by rewrite strip_ansi_no_esc.
  - apply strip_newlines_spec.
Qed.

(** C10.  The default file of an [enrich] invocation is named after the base
    name of the input alone: its name has no directory part, so the JSON
    copy is made in the current working directory, and no file under a
    directory, the one of the input included, is touched. *)
Theorem mdm_in_current_directory parent o key result w w1 :
  opt_output o = None ->
  credentials config o = Some key ->
  function (context_of Enrich parent o) {| client_api_key := key |} (with_client key w)
  = (Return result, w1) ->
  let name := output_file_name (file_name (File_r (opt_input o))) in
  exists w', run Enrich config function parent o w = (Return tt, w')
    /\ files w' = <[name := echoed false (json_output json_formatter result)]> (files w1)
    /\ in_current_directory name
    /\ (forall dir base, opt_input o = dir +:+ "/" +:+ base -> in_current_directory base ->
          name = output_file_name base)
    /\ (forall path, ~ in_current_directory path -> files w' !! path = files w1 !! path).
Proof.
  intros Hout Hkey Hf name.
  rewrite (run_command_success Enrich parent o key result w w1 Hkey Hf), Hout.
  eexists. split; [reflexivity|]. split; [reflexivity|].
  assert (Hname : in_current_directory name) by apply output_file_name_sep_free.
  split; [exact Hname|]. split.
  - intros dir base Hin Hbase. subst name. rewrite Hin. unfold File_r.
    destruct (String.eqb_spec (dir +:+ "/" +:+ base) "-") as [Heq|_].
    + exfalso. apply (f_equal chars) in Heq. rewrite !chars_app in Heq.
      apply (f_equal (fun l => bool_decide (OsPath.sep ∈ l))) in Heq.
      rewrite bool_decide_eq_true_2 in Heq; [discriminate Heq|].
      rewrite elem_of_app. right. by left.
    + simpl file_name. by apply output_file_name_joined.
  - intros path Hpath. simpl. apply lookup_insert_ne. intros <-. by apply Hpath.
Qed.

End Pipeline.

(** ** The JSON formatter *)

Section JsonRoundTrip.
Import Json.

(** Induction on values, with the hypothesis on every element of a list and
    every value of a dictionary. *)
Lemma pyval_nested_ind (P : pyval -> Prop) :
  P PNone -> (forall b, P (PBool b)) -> (forall z, P (PInt z)) -> (forall s, P (PStr s)) ->
  (forall l, Forall P l -> P (PList l)) ->
  (forall d, Forall (fun kx => P (snd kx)) d -> P (PDict d)) ->
  forall v, P v.
Proof.
  intros HNone HBool HInt HStr HList HDict.
  fix IH 1. intros [ |b|z|s|l|d].
  - exact HNone.
  - apply HBool.
  - apply HInt.
  - apply HStr.
  - apply HList. induction l as [|x l IHl]; constructor; [apply IH|exact IHl].
  - apply HDict. induction d as [|[k x] d IHd]; constructor; [apply IH|exact IHd].
Qed.

Lemma parse_string_escape (c : ascii) (tail : list ascii) :
  parse_string_body (escape_char c ++ tail) =
    match parse_string_body tail with
    | Some (str, rest) => Some (c :: str, rest)
    | None => None
    end.
Proof. destruct c as [[] [] [] [] [] [] [] []]; reflexivity. Qed.

Lemma parse_string_encoded (s rest : list ascii) :
  parse_string_body (flat_map escape_char s ++ dquote :: rest) = Some (s, rest).
Proof.
  induction s as [|c s IH]; [reflexivity|].
  simpl flat_map. rewrite <- app_assoc, parse_string_escape, IH. reflexivity.
Qed.

Lemma to_uint_no_leading_zero (p : positive) (u : Decimal.uint) :
  Pos.to_uint p <> Decimal.D0 u.
Proof.
  intros Hu.
  assert (Hnorm : Decimal.unorm (Pos.to_uint p) = Pos.to_uint p).
  { rewrite <- Unsigned.to_of, DecimalPos.Unsigned.of_to. reflexivity. }
  destruct (Decimal.nzhead (Pos.to_uint p)) eqn:Hnz.
  - apply (Unsigned.to_uint_nonzero p). rewrite <- Hnorm. by apply unorm_0.
  - apply (nzhead_nonzero (Pos.to_uint p) u).
    rewrite <- unorm_nzhead by (rewrite Hnz; discriminate). congruence.
  - rewrite unorm_nzhead in Hnorm by (rewrite Hnz; discriminate). congruence.
  - rewrite unorm_nzhead in Hnorm by (rewrite Hnz; discriminate). congruence.
  - rewrite unorm_nzhead in Hnorm by (rewrite Hnz; discriminate). congruence.
  - rewrite unorm_nzhead in Hnorm by (rewrite Hnz; discriminate). congruence.
  - rewrite unorm_nzhead in Hnorm by (rewrite Hnz; discriminate). congruence.
  - rewrite unorm_nzhead in Hnorm by (rewrite Hnz; discriminate). congruence.
  - rewrite unorm_nzhead in Hnorm by (rewrite Hnz; discriminate). congruence.
  - rewrite unorm_nzhead in Hnorm by (rewrite Hnz; discriminate). congruence.
  - rewrite unorm_nzhead in Hnorm by (rewrite Hnz; discriminate). congruence.
Qed.

Lemma uint_digits (u : Decimal.uint) :
  Forall (fun c => is_digit c = true) (chars (NilEmpty.string_of_uint u)).
Proof. induction u; simpl; constructor; done. Qed.

Lemma span_digits_all (ds rest : list ascii) :
  Forall (fun c => is_digit c = true) ds ->
  (forall c, head rest = Some c -> is_digit c = false) ->
  span_digits (ds ++ rest) = (ds, rest).
Proof.
  intros Hds Hrest. induction Hds as [|c ds Hc _ IH]; simpl.
  - destruct rest as [|c r]; [done|]. simpl. by rewrite (Hrest c eq_refl).
  - by rewrite Hc, IH.
Qed.

(** The digits of a positive number, read back. *)
Lemma parse_number_digits (sign : list ascii) (p : positive) (rest : list ascii) :
  sign = [] \/ sign = ["-"%char] ->
  (forall c, head rest = Some c -> is_digit c = false) ->
  parse_number (sign ++ chars (NilEmpty.string_of_uint (Pos.to_uint p)) ++ rest)
  = (fun d => (Z.of_int d, rest))
      <$> NilZero.int_of_string
            (of_chars (sign ++ chars (NilEmpty.string_of_uint (Pos.to_uint p)))).
Proof.
  intros Hsign Hrest.
  pose proof (uint_digits (Pos.to_uint p)) as Hds.
  pose proof (to_uint_no_leading_zero p) as Hlead.
  pose proof (Unsigned.to_uint_nonnil p) as Hnil.
  destruct (Pos.to_uint p) as [|u|u|u|u|u|u|u|u|u|u] eqn:Hu;
    try done; try (exfalso; by eapply Hlead).
  all: simpl NilEmpty.string_of_uint in *; simpl chars in *.
  all: apply Forall_cons in Hds as [_ Hds].
  all: destruct Hsign as [-> | ->]; unfold parse_number; simpl;
    rewrite (span_digits_all _ rest Hds Hrest); reflexivity.
Qed.

Lemma parse_number_printed (z : Z) (rest : list ascii) :
  (forall c, head rest = Some c -> is_digit c = false) ->
  parse_number (chars (str_of_Z z) ++ rest) = Some (z, rest).
Proof.
  intros Hrest. unfold str_of_Z.
  destruct z as [|p|p]; [reflexivity| |].
  - pose proof (parse_number_digits [] p rest (or_introl eq_refl) Hrest) as H.
    simpl app in H.
    assert (Hs : NilZero.string_of_int (Z.to_int (Z.pos p))
                 = NilEmpty.string_of_uint (Pos.to_uint p)).
    { simpl. pose proof (Unsigned.to_uint_nonnil p). by destruct (Pos.to_uint p). }
    rewrite Hs, H, of_chars_chars, <- Hs, NilZero.isi; try discriminate.
    + cbn [fmap option_fmap option_map]. by rewrite DecimalZ.of_to.
    + simpl. intros [= Hp]. by apply (Unsigned.to_uint_nonnil p).
  - pose proof (parse_number_digits ["-"%char] p rest (or_intror eq_refl) Hrest) as H.
    assert (Hs : NilZero.string_of_int (Z.to_int (Z.neg p))
                 = String "-" (NilEmpty.string_of_uint (Pos.to_uint p))).
    { simpl. pose proof (Unsigned.to_uint_nonnil p). by destruct (Pos.to_uint p). }
    rewrite Hs. simpl chars. simpl app in H |- *. rewrite H.
    change ("-"%char :: chars (NilEmpty.string_of_uint (Pos.to_uint p)))
      with (chars (String "-" (NilEmpty.string_of_uint (Pos.to_uint p)))).
    rewrite of_chars_chars, <- Hs, NilZero.isi; try discriminate.
    + cbn [fmap option_fmap option_map]. by rewrite DecimalZ.of_to.
    + simpl. intros [= Hp]. by apply (Unsigned.to_uint_nonnil p).
Qed.

(** *** One step of the reader, by the character it meets *)

Lemma parse_value_space fuel r : parse_value fuel (" "%char :: r) = parse_value fuel r.
Proof. by destruct fuel. Qed.

Lemma parse_value_number fuel c r :
  is_digit c = true \/ c = "-"%char ->
  parse_value (S fuel) (c :: r) = (fun zr => (PInt (fst zr), snd zr)) <$> parse_number (c :: r).
Proof.
  destruct c as [[] [] [] [] [] [] [] []]; intros [H|H]; try discriminate H; reflexivity.
Qed.

Lemma parse_value_string fuel r :
  parse_value (S fuel) (dquote :: r)
  = (fun sr => (PStr (of_chars (fst sr)), snd sr)) <$> parse_string_body r.
Proof. reflexivity. Qed.

Lemma parse_value_list fuel r :
  parse_value (S fuel) ("["%char :: r) =
    match skip_ws r with
    | c' :: r' =>
        if Ascii.eqb c' "]"%char then Some (PList [], r')
        else
          match parse_value fuel r with
          | Some (x, r1) => (fun lr => (PList (x :: fst lr), snd lr)) <$> parse_items fuel r1
          | None => None
          end
    | [] => None
    end.
Proof. reflexivity. Qed.

Lemma parse_value_dict_member fuel k t :
  parse_value (S fuel) ("{"%char :: encode_string k ++ t) =
    match parse_member fuel (encode_string k ++ t) with
    | Some (kx, r1) =>
        (fun dr => (PDict (dict_of_pairs (kx :: fst dr)), snd dr)) <$> parse_members fuel r1
    | None => None
    end.
Proof. reflexivity. Qed.

Lemma parse_items_close fuel r : parse_items (S fuel) ("]"%char :: r) = Some ([], r).
Proof. reflexivity. Qed.

Lemma parse_items_comma fuel r :
  parse_items (S fuel) (","%char :: r) =
    match parse_value fuel r with
    | Some (x, r1) => (fun lr => (x :: fst lr, snd lr)) <$> parse_items fuel r1
    | None => None
    end.
Proof. reflexivity. Qed.

Lemma parse_members_close fuel r : parse_members (S fuel) ("}"%char :: r) = Some ([], r).
Proof. reflexivity. Qed.

Lemma parse_members_comma fuel r :
  parse_members (S fuel) (","%char :: r) =
    match parse_member fuel r with
    | Some (kx, r1) => (fun dr => (kx :: fst dr, snd dr)) <$> parse_members fuel r1
    | None => None
    end.
Proof. reflexivity. Qed.

Lemma parse_member_encoded fuel k r :
  parse_member (S fuel) (encode_string k ++ colon ++ r)
  = (fun xr => ((k, fst xr), snd xr)) <$> parse_value fuel r.
Proof.
  unfold encode_string. rewrite <- !app_comm_cons, <- app_assoc.
  change (parse_member (S fuel) (dquote :: ?t))
    with (match parse_string_body t with
          | Some (k, r1) =>
              match skip_ws r1 with
              | c' :: r2 =>
                  if Ascii.eqb c' ":"%char then
                    (fun xr => ((of_chars k, fst xr), snd xr)) <$> parse_value fuel r2
                  else None
              | [] => None
              end
          | None => None
          end).
  simpl app. rewrite parse_string_encoded. simpl skip_ws. simpl Ascii.eqb. cbv iota.
  by rewrite parse_value_space, of_chars_chars.
Qed.

(** *** The first character of a printed value *)

Lemma digit_is_no_blank (c : ascii) :
  is_digit c = true \/ c = "-"%char -> is_ws c = false /\ Ascii.eqb c "]"%char = false.
Proof.
  destruct c as [[] [] [] [] [] [] [] []]; intros [H|H]; try discriminate H; done.
Qed.

Lemma number_head (z : Z) :
  exists c tl, chars (str_of_Z z) = c :: tl /\ (is_digit c = true \/ c = "-"%char).
Proof.
  unfold str_of_Z. destruct z as [|p|p].
  - eexists _, _. split; [reflexivity|]. by left.
  - simpl. pose proof (uint_digits (Pos.to_uint p)) as Hds.
    pose proof (Unsigned.to_uint_nonnil p) as Hnil.
    destruct (Pos.to_uint p); try done; simpl in *;
      apply Forall_cons in Hds as [Hc _]; eauto.
  - simpl. pose proof (Unsigned.to_uint_nonnil p) as Hnil.
    destruct (Pos.to_uint p); try done; eexists _, _; (split; [reflexivity|by right]).
Qed.

Lemma dumps_head (v : pyval) :
  exists c tl, dumps v = c :: tl /\ is_ws c = false /\ Ascii.eqb c "]"%char = false.
Proof.
  destruct v as [ |[]|z|s|[|x l]|[|kx d]]; try (eexists _, _; split; [reflexivity|done]).
  destruct (number_head z) as (c & tl & Heq & Hc).
  exists c, tl. simpl. split; [done|]. by apply digit_is_no_blank.
Qed.

(** *** Dictionaries with distinct keys *)

Lemma distinct_cons k l :
  distinct (k :: l) = negb (existsb (String.eqb k) l) && distinct l.
Proof. reflexivity. Qed.

Lemma dict_set_fresh k v (acc l : list (string * pyval)) :
  distinct (map fst (acc ++ (k, v) :: l)) = true -> dict_set k v acc = acc ++ [(k, v)].
Proof.
  induction acc as [|[k' v'] acc IH]; [done|].
  simpl map. rewrite distinct_cons. intros [Hk Hd]%andb_true_iff.
  simpl. rewrite (IH Hd).
  rewrite map_app, existsb_app in Hk. simpl in Hk.
  destruct (String.eqb k' k); [|done].
  by rewrite orb_true_r in Hk.
Qed.

Lemma dict_of_pairs_distinct (l : list (string * pyval)) :
  distinct (map fst l) = true -> dict_of_pairs l = l.
Proof.
  unfold dict_of_pairs.
  enough (H : forall acc, distinct (map fst (acc ++ l)) = true ->
                fold_left (fun d kv => dict_set (fst kv) (snd kv) d) l acc = acc ++ l)
    by apply (H []).
  induction l as [|[k v] l IH]; intros acc Hd; simpl.
  - by rewrite app_nil_r.
  - rewrite (dict_set_fresh k v acc l Hd), IH; rewrite <- app_assoc; done.
Qed.

(** *** Reading a printed value *)

Lemma items_head (l : list pyval) (rest : list ascii) (c : ascii) :
  head (flat_map (fun y => comma ++ dumps y) l ++ "]"%char :: rest) = Some c ->
  is_digit c = false.
Proof. destruct l; simpl; by intros [= <-]. Qed.

Lemma members_head (d : list (string * pyval)) (rest : list ascii) (c : ascii) :
  head (flat_map (fun ky => comma ++ encode_string (fst ky) ++ colon ++ dumps (snd ky)) d
          ++ "}"%char :: rest) = Some c ->
  is_digit c = false.
Proof. destruct d; simpl; by intros [= <-]. Qed.

Lemma item_text (y : pyval) (tail : list ascii) :
  (comma ++ dumps y) ++ tail = ","%char :: " "%char :: dumps y ++ tail.
Proof. by rewrite <- app_assoc. Qed.

Lemma member_text (k : string) (y : pyval) (tail : list ascii) :
  (comma ++ encode_string k ++ colon ++ dumps y) ++ tail
  = ","%char :: " "%char :: encode_string k ++ colon ++ dumps y ++ tail.
Proof. by rewrite <- !app_assoc. Qed.

Lemma parse_member_space fuel r :
  parse_member fuel (" "%char :: r) = parse_member fuel r.
Proof. by destruct fuel. Qed.

Lemma parse_items_printed (l : list pyval) :
  Forall reads_back l -> forallb well_formed l = true ->
  forall fuel rest,
    length (flat_map (fun y => comma ++ dumps y) l) + 1 <= fuel ->
    parse_items fuel (flat_map (fun y => comma ++ dumps y) l ++ "]"%char :: rest)
    = Some (l, rest).
Proof.
  induction 1 as [|y l Hy _ IH]; intros Hwf fuel rest Hfuel.
  - destruct fuel; [simpl in Hfuel; lia|]. apply parse_items_close.
  - change (forallb well_formed (y :: l))
      with (well_formed y && forallb well_formed l) in Hwf.
    apply andb_true_iff in Hwf as [Hwy Hwl].
    change (flat_map (fun y => comma ++ dumps y) (y :: l))
      with ((comma ++ dumps y) ++ flat_map (fun y => comma ++ dumps y) l) in *.
    rewrite !length_app in Hfuel. change (length comma) with 2 in Hfuel.
    destruct fuel as [|fuel]; [lia|].
    rewrite <- app_assoc, item_text.
    rewrite parse_items_comma, parse_value_space.
    rewrite (Hy Hwy) by (lia || apply items_head).
    rewrite IH by (done || lia). reflexivity.
Qed.

Lemma parse_members_printed (d : list (string * pyval)) :
  Forall (fun kx => reads_back (snd kx)) d ->
  forallb (fun kx => well_formed (snd kx)) d = true ->
  forall fuel rest,
    length (flat_map (fun ky => comma ++ encode_string (fst ky) ++ colon ++ dumps (snd ky)) d)
      + 1 <= fuel ->
    parse_members fuel
      (flat_map (fun ky => comma ++ encode_string (fst ky) ++ colon ++ dumps (snd ky)) d
         ++ "}"%char :: rest)
    = Some (d, rest).
Proof.
  induction 1 as [|[k y] d Hy _ IH]; intros Hwf fuel rest Hfuel.
  - destruct fuel; [simpl in Hfuel; lia|]. apply parse_members_close.
  - change (forallb ?f ((k, y) :: d)) with (well_formed y && forallb f d) in Hwf.
    apply andb_true_iff in Hwf as [Hwy Hwl]. cbn [fst snd] in Hy.
    change (flat_map ?f ((k, y) :: d))
      with ((comma ++ encode_string k ++ colon ++ dumps y) ++ flat_map f d) in *.
    rewrite !length_app in Hfuel.
    change (length comma) with 2 in Hfuel. change (length colon) with 2 in Hfuel.
    destruct fuel as [|[|fuel]]; [lia|lia|].
    rewrite <- app_assoc, member_text.
    rewrite parse_members_comma, parse_member_space, parse_member_encoded.
    rewrite (Hy Hwy) by (lia || apply members_head).
    cbn [fmap option_fmap option_map fst snd].
    rewrite IH by (done || lia). reflexivity.
Qed.

Lemma dumps_reads_back (v : pyval) : reads_back v.
Proof.
  induction v as [ |b|z|s|l IH|d IH] using pyval_nested_ind; intros Hwf fuel rest Hfuel Hrest.
  - destruct fuel; [simpl in Hfuel; lia|]. reflexivity.
  - destruct fuel; [destruct b; simpl in Hfuel; lia|]. by destruct b.
  - destruct (number_head z) as (c & tl & Heq & Hc).
    destruct fuel; [simpl in Hfuel; rewrite Heq in Hfuel; simpl in Hfuel; lia|].
    simpl dumps. pose proof (parse_number_printed z rest Hrest) as Hnum.
    rewrite Heq in Hnum |- *. simpl app in *.
    by rewrite parse_value_number, Hnum.
  - destruct fuel; [simpl in Hfuel; lia|].
    simpl dumps. unfold encode_string. rewrite <- app_comm_cons, <- app_assoc.
    rewrite parse_value_string. simpl app. rewrite parse_string_encoded.
    cbn [fmap option_fmap option_map fst snd]. by rewrite of_chars_chars.
  - destruct l as [|x l].
    + destruct fuel; [simpl in Hfuel; lia|]. reflexivity.
    + change (well_formed (PList (x :: l)))
        with (well_formed x && forallb well_formed l) in Hwf.
      apply andb_true_iff in Hwf as [Hwx Hwl].
      apply Forall_cons in IH as [Hx Hl].
      change (dumps (PList (x :: l)))
        with ("["%char :: dumps x ++ flat_map (fun y => comma ++ dumps y) l ++ ["]"%char]) in *.
      rewrite length_cons, !length_app in Hfuel.
      change (length ["]"%char]) with 1 in Hfuel.
      destruct fuel as [|fuel]; [lia|].
      rewrite <- app_comm_cons, <- !app_assoc. simpl app.
      rewrite parse_value_list.
      destruct (dumps_head x) as (c & tl & Heq & Hws & Hclose).
      rewrite Heq at 1. simpl skip_ws. rewrite Hws, Hclose.
      rewrite (Hx Hwx) by (lia || apply items_head).
      rewrite (parse_items_printed l Hl Hwl) by lia. reflexivity.
  - destruct d as [|[k x] d].
    + destruct fuel; [simpl in Hfuel; lia|]. reflexivity.
    + change (well_formed (PDict ((k, x) :: d)))
        with (distinct (map fst ((k, x) :: d))
              && (well_formed x && forallb (fun kx => well_formed (snd kx)) d)) in Hwf.
      apply andb_true_iff in Hwf as [Hkeys [Hwx Hwd]%andb_true_iff].
      apply Forall_cons in IH as [Hx Hd]. cbn [fst snd] in Hx.
      change (dumps (PDict ((k, x) :: d)))
        with ("{"%char :: (encode_string k ++ colon ++ dumps x)
                ++ flat_map (fun ky => comma ++ encode_string (fst ky) ++ colon
                                         ++ dumps (snd ky)) d
                ++ ["}"%char]) in *.
      rewrite length_cons, !length_app in Hfuel.
      change (length colon) with 2 in Hfuel. change (length ["}"%char]) with 1 in Hfuel.
      destruct fuel as [|[|fuel]]; [lia|lia|].
      rewrite <- app_comm_cons, <- !app_assoc.
      change (["}"%char] ++ rest) with ("}"%char :: rest).
      rewrite parse_value_dict_member.
      rewrite parse_member_encoded.
      rewrite (Hx Hwx) by (lia || apply members_head).
      cbn [fmap option_fmap option_map fst snd].
      rewrite (parse_members_printed d Hd Hwd) by lia.
      cbn [fmap option_fmap option_map fst snd].
      by rewrite (dict_of_pairs_distinct ((k, x) :: d) Hkeys).
Qed.

(** *** The printed text has no newline *)

Abbreviation no_newline l := (existsb (Ascii.eqb newline) l = false).

Lemma escape_char_newline (c : ascii) : no_newline (escape_char c).
Proof. destruct c as [[] [] [] [] [] [] [] []]; reflexivity. Qed.

Lemma encode_string_newline (s : string) : no_newline (encode_string s).
Proof.
  unfold encode_string. simpl. rewrite existsb_app. simpl. rewrite orb_false_r.
  induction (chars s) as [|c l IH]; [done|].
  simpl. by rewrite existsb_app, escape_char_newline, IH.
Qed.

Lemma number_newline (z : Z) : no_newline (chars (str_of_Z z)).
Proof.
  assert (Hu : forall u, no_newline (chars (NilEmpty.string_of_uint u)))
    by (induction u; done).
  unfold str_of_Z. destruct z as [|p|p]; [done| |]; simpl;
    pose proof (Hu (Pos.to_uint p)); by destruct (Pos.to_uint p).
Qed.

Lemma flat_map_newline {A} (f : A -> list ascii) (l : list A) :
  Forall (fun x => no_newline (f x)) l -> no_newline (flat_map f l).
Proof.
  induction 1 as [|x l Hx _ IH]; [done|].
  change (flat_map f (x :: l)) with (f x ++ flat_map f l).
  by rewrite existsb_app, Hx, IH.
Qed.

Lemma dumps_newline (v : pyval) : no_newline (dumps v).
Proof.
  induction v as [ |b|z|s|l IH|d IH] using pyval_nested_ind.
  - done.
  - by destruct b.
  - apply number_newline.
  - apply encode_string_newline.
  - destruct l as [|x l]; [done|]. apply Forall_cons in IH as [Hx Hl].
    change (dumps (PList (x :: l)))
      with ("["%char :: dumps x ++ flat_map (fun y => comma ++ dumps y) l ++ ["]"%char]).
    cbn [existsb]. rewrite !existsb_app, Hx, flat_map_newline; [done|].
    eapply Forall_impl; [exact Hl|]. intros y Hy. cbv beta.
    by rewrite existsb_app, Hy.
  - destruct d as [|[k x] d]; [done|]. apply Forall_cons in IH as [Hx Hd]. cbn [snd] in Hx.
    change (dumps (PDict ((k, x) :: d)))
      with ("{"%char :: (encode_string k ++ colon ++ dumps x)
              ++ flat_map (fun ky => comma ++ encode_string (fst ky) ++ colon
                                       ++ dumps (snd ky)) d
              ++ ["}"%char]).
    cbn [existsb]. rewrite !existsb_app, Hx, encode_string_newline, flat_map_newline; [done|].
    eapply Forall_impl; [exact Hd|]. intros [k' y] Hy. cbv beta. cbn [fst snd] in *.
    by rewrite !existsb_app, Hy, encode_string_newline.
Qed.

Lemma existsb_not_elem (c : ascii) (l : list ascii) :
  existsb (Ascii.eqb c) l = false -> c ∉ l.
Proof.
  induction l as [|x l IH]; simpl; [intros _; apply not_elem_of_nil|].
  intros [Hx Hl]%orb_false_iff. apply not_elem_of_cons. split; [|by apply IH].
  intros ->. by rewrite Ascii.eqb_refl in Hx.
Qed.

Lemma length_chars (s : string) : length (chars s) = String.length s.
Proof. induction s as [|c s IH]; simpl; [done|]. by rewrite <- IH. Qed.

Lemma loads_printed (v : pyval) (blanks : list ascii) :
  well_formed v = true ->
  (forall c, head blanks = Some c -> is_digit c = false) ->
  skip_ws blanks = [] ->
  loads (of_chars (dumps v ++ blanks)) = Some v.
Proof.
  intros Hwf Hhead Hblank. unfold loads.
  rewrite chars_of_chars, <- length_chars, chars_of_chars.
  rewrite (dumps_reads_back v Hwf) by (rewrite ?length_app; lia || done).
  by rewrite Hblank.
Qed.

(** The text of [json.dumps] has no escape character: a string holds it as
    [\u001b]. *)
Abbreviation no_escape l := (existsb (Ascii.eqb ESC) l = false).

Lemma escape_char_escape (c : ascii) : no_escape (escape_char c).
Proof. destruct c as [[] [] [] [] [] [] [] []]; reflexivity. Qed.

Lemma encode_string_escape (s : string) : no_escape (encode_string s).
Proof.
  unfold encode_string. simpl. rewrite existsb_app. simpl. rewrite orb_false_r.
  induction (chars s) as [|c l IH]; [done|].
  simpl. by rewrite existsb_app, escape_char_escape, IH.
Qed.

Lemma number_escape (z : Z) : no_escape (chars (str_of_Z z)).
Proof.
  assert (Hu : forall u, no_escape (chars (NilEmpty.string_of_uint u)))
    by (induction u; done).
  unfold str_of_Z. destruct z as [|p|p]; [done| |]; simpl;
    pose proof (Hu (Pos.to_uint p)); by destruct (Pos.to_uint p).
Qed.

Lemma flat_map_escape {A} (f : A -> list ascii) (l : list A) :
  Forall (fun x => no_escape (f x)) l -> no_escape (flat_map f l).
Proof.
  induction 1 as [|x l Hx _ IH]; [done|].
  change (flat_map f (x :: l)) with (f x ++ flat_map f l).
  by rewrite existsb_app, Hx, IH.
Qed.

Lemma dumps_escape (v : pyval) : no_escape (dumps v).
Proof.
  induction v as [ |b|z|s|l IH|d IH] using pyval_nested_ind.
  - done.
  - by destruct b.
  - apply number_escape.
  - apply encode_string_escape.
  - destruct l as [|x l]; [done|]. apply Forall_cons in IH as [Hx Hl].
    change (dumps (PList (x :: l)))
      with ("["%char :: dumps x ++ flat_map (fun y => comma ++ dumps y) l ++ ["]"%char]).
    cbn [existsb]. rewrite !existsb_app, Hx, flat_map_escape; [done|].
    eapply Forall_impl; [exact Hl|]. intros y Hy. cbv beta.
    by rewrite existsb_app, Hy.
  - destruct d as [|[k x] d]; [done|]. apply Forall_cons in IH as [Hx Hd]. cbn [snd] in Hx.
    change (dumps (PDict ((k, x) :: d)))
      with ("{"%char :: (encode_string k ++ colon ++ dumps x)
              ++ flat_map (fun ky => comma ++ encode_string (fst ky) ++ colon
                                       ++ dumps (snd ky)) d
              ++ ["}"%char]).
    cbn [existsb]. rewrite !existsb_app, Hx, encode_string_escape, flat_map_escape; [done|].
    eapply Forall_impl; [exact Hd|]. intros [k' y] Hy. cbv beta. cbn [fst snd] in *.
    by rewrite !existsb_app, Hy, encode_string_escape.
Qed.

(** C8.  The JSON formatter loses nothing: for every result that is a Python
    object (dictionary keys distinct, numbers integers), reading the text of
    the JSON formatter gives the result back, and so does reading the JSON
    copy as [echo_result] writes it, stripped and followed by a newline:
    the text has no ANSI code for [click.echo] to take out. *)
Theorem json_round_trip (result : pyval) (verbose : arg) :
  well_formed result = true ->
  loads (json_formatter result verbose) = Some result
  /\ loads (json_output json_formatter result +:+ nl) = Some result
  /\ echoed false (json_output json_formatter result)
     = json_output json_formatter result +:+ nl.
Proof.
  intros Hwf.
  assert (Hout : json_output json_formatter result = of_chars (dumps result)).
  { unfold json_output, json_formatter, strip_newlines.
    by rewrite chars_of_chars, strip_absent by apply existsb_not_elem, dumps_newline. }
  split; [|split].
  - unfold json_formatter. rewrite <- (app_nil_r (dumps result)).
    by apply loads_printed.
  - rewrite Hout.
    change nl with (of_chars [newline]). rewrite <- of_chars_app.
    apply loads_printed; [done| |done].
    by intros c [= <-].
  - apply echoed_no_esc. rewrite Hout, chars_app, chars_of_chars.
    apply existsb_not_elem. by rewrite existsb_app, dumps_escape.
Qed.
End JsonRoundTrip.

(** ** The properties on the sample session *)

Example sample_enrich :
  Sample.run Enrich Sample.no_key Sample.succeed Sample.options
  = (Return tt,
     {| stdout := "Subject: hello" +:+ nl;
        files := {[ "message.mdm" :=
                      of_chars (Json.dumps Sample.result) +:+ nl ]};
        log := [];
        clients := [{| client_api_key := AVal (PStr "secret") |}];
        network := ["POST"];
        stdin_isatty := true;
        stdout_isatty := true |}).
Proof. reflexivity. Qed.

(** [enrich -k secret -i mail/message.eml]: the text on standard output and
    the JSON copy in [message.mdm]. *)
Lemma enrich_dual_write_witness :
  opt_output Sample.options = None
  /\ credentials Sample.no_key Sample.options = Some (AVal (PStr "secret"))
  /\ Sample.run Enrich Sample.no_key Sample.succeed Sample.options
     = (Return tt,
        set_files (fun fs => <[ "message.mdm" :=
                                  json_output Json.json_formatter Sample.result +:+ nl ]> fs)
          (set_stdout (fun out => out +:+ "Subject: hello" +:+ nl)
             (Sample.request (with_client (AVal (PStr "secret")) Sample.world)))).
Proof.
  split; [reflexivity|]. split; [reflexivity|].
  apply (enrich_dual_write Json.json_formatter Sample.enrich_formatter
           Sample.analyze_formatter Sample.no_key Sample.succeed Sample.program
           Sample.options (AVal (PStr "secret")) Sample.result Sample.world
           (Sample.request (with_client (AVal (PStr "secret")) Sample.world)));
    reflexivity.
Defined.

(** [analyze -i mail/message.eml -d rules.pql] with no key anywhere. *)
Lemma missing_api_key_witness :
  opt_api_key Sample.options_no_key = None
  /\ (forall key, Sample.no_key !! "api_key" = Some key -> truthy key = false)
  /\ fst (Sample.run Analyze Sample.no_key Sample.succeed Sample.options_no_key)
     = Raise (Exit (-1))
  /\ clients (snd (Sample.run Analyze Sample.no_key Sample.succeed Sample.options_no_key)) = []
  /\ network (snd (Sample.run Analyze Sample.no_key Sample.succeed Sample.options_no_key)) = [].
Proof.
  assert (Hconfig : forall key, Sample.no_key !! "api_key" = Some key -> truthy key = false).
  { intros key Hkey. vm_compute in Hkey. injection Hkey as <-. reflexivity. }
  split; [reflexivity|]. split; [exact Hconfig|].
  pose proof (missing_api_key Json.json_formatter Sample.enrich_formatter
                Sample.analyze_formatter Sample.no_key Sample.succeed Analyze
                Sample.program Sample.options_no_key Sample.world eq_refl Hconfig) as H.
  unfold Sample.run.
  destruct (run_command _ _ _ _ _ _ _ _ _) as [r w'].
  destruct H as (Hclients & Hnetwork & _ & _ & _ & Hexit).
  destruct (Hexit (PStr EmptyString) {| info_name := PStr "sublime" |} eq_refl eq_refl)
    as (Hr & _).
  split; [exact Hr|]. split; [exact Hclients|exact Hnetwork].
Defined.

(** [analyze] against a service that answers 400 with the body
    [{"detail": "bad file"}]. *)
Lemma remote_failure_logged_witness :
  credentials Sample.no_key Sample.options = Some (AVal (PStr "secret"))
  /\ error_detail Sample.bad_file = Some "bad file"
  /\ Sample.run Analyze Sample.no_key (Sample.fail Sample.bad_file) Sample.options
     = (Raise (Exit (-1)),
        set_log (fun l => l ++ ["API error: bad file"])
          (Sample.request (with_client (AVal (PStr "secret")) Sample.world)))
  /\ occurs_in "bad file" "API error: bad file".
Proof.
  split; [reflexivity|]. split; [reflexivity|].
  pose proof (remote_failure_logged Json.json_formatter Sample.enrich_formatter
                Sample.analyze_formatter Sample.no_key (Sample.fail Sample.bad_file)
                Analyze Sample.program Sample.options (AVal (PStr "secret"))
                Sample.bad_file "bad file" Sample.world
                (Sample.request (with_client (AVal (PStr "secret")) Sample.world))
                eq_refl eq_refl eq_refl) as (Hrun & Hoccurs & _).
  split; [exact Hrun|exact Hoccurs].
Defined.

(** [enrich -k secret -i mail/message.eml -o out.txt -f json]. *)
Lemma enrich_explicit_output_witness :
  opt_output Sample.options_output = Some "out.txt"
  /\ credentials Sample.no_key Sample.options_output = Some (AVal (PStr "secret"))
  /\ Sample.run Enrich Sample.no_key Sample.succeed Sample.options_output
     = (Return tt,
        set_files (fun fs => <[ "out.txt" :=
                                  json_output Json.json_formatter Sample.result +:+ nl ]> fs)
          (Sample.request (with_client (AVal (PStr "secret")) Sample.world)))
  /\ files (snd (Sample.run Enrich Sample.no_key Sample.succeed Sample.options_output))
       !! "message.mdm" = None.
Proof.
  split; [reflexivity|]. split; [reflexivity|].
  pose proof (enrich_explicit_output Json.json_formatter Sample.enrich_formatter
                Sample.analyze_formatter Sample.no_key Sample.succeed Sample.program
                Sample.options_output "out.txt" (AVal (PStr "secret")) Sample.result
                Sample.world
                (Sample.request (with_client (AVal (PStr "secret")) Sample.world))
                eq_refl eq_refl eq_refl) as (Hrun & Hframe).
  split; [exact Hrun|].
  unfold Sample.run. rewrite Hrun. exact (Hframe "message.mdm" ltac:(discriminate)).
Defined.

(** [enrich -k secret -i message.eml -f txt]: the copy goes to [message.mdm]. *)
Lemma default_file_name_strips_extension_witness :
  opt_output Sample.options_here = None
  /\ credentials Sample.no_key Sample.options_here = Some (AVal (PStr "secret"))
  /\ fst (OsPath.splitext (OsPath.basename "message.eml")) +:+ ".mdm" = "message.mdm"
  /\ files (snd (Sample.run Enrich Sample.no_key Sample.succeed Sample.options_here))
     = <[ "message.mdm" := json_output Json.json_formatter Sample.result +:+ nl ]> ∅.
Proof.
  split; [reflexivity|]. split; [reflexivity|]. split; [reflexivity|].
  pose proof (default_file_name_strips_extension Json.json_formatter Sample.enrich_formatter
                Sample.analyze_formatter Sample.no_key Sample.succeed Sample.program
                Sample.options_here (AVal (PStr "secret")) Sample.result Sample.world
                (Sample.request (with_client (AVal (PStr "secret")) Sample.world))
                eq_refl eq_refl eq_refl) as ((w' & Hrun & Hfiles) & _).
  unfold Sample.run. rewrite Hrun. exact Hfiles.
Defined.

(** C7, as the specification states it, fails on a formatter whose output
    starts with a newline: [echo_result] writes [Subject: hello] and a
    newline, while the output stripped at its end only still starts with a
    newline. *)
Lemma leading_newlines_are_stripped :
  let text := Sample.enrich_formatter Sample.result (AVal (PBool false)) in
  let r := Sample.run Enrich Sample.no_key Sample.succeed Sample.options in
  fst r = Return tt
  /\ stdout (snd r) = "Subject: hello" +:+ nl
  /\ rstrip_newlines text = nl +:+ "Subject: hello"
  /\ stdout (snd r) <> rstrip_newlines text
  /\ stdout (snd r) <> rstrip_newlines text +:+ nl.
Proof. vm_compute. repeat split; discriminate. Qed.

(** [enrich -k secret -i mail/message.eml] at a terminal, and the same with
    [-o out.txt -f txt] and a formatter that sets the subject in bold: the
    file receives the subject without the codes. *)
Lemma output_is_stripped_at_both_ends_witness :
  credentials Sample.no_key Sample.options = Some (AVal (PStr "secret"))
  /\ stdout (snd (Sample.run Enrich Sample.no_key Sample.succeed Sample.options))
     = strip_newlines (Sample.enrich_formatter Sample.result (AVal (PBool false))) +:+ nl
  /\ strip_newlines (Sample.enrich_formatter Sample.result (AVal (PBool false)))
     = "Subject: hello"
  /\ credentials Sample.no_key Cases.options_text_file = Some (AVal (PStr "secret"))
  /\ strip_newlines (Cases.bold_formatter Sample.result (AVal (PBool false)))
     = String ESC "[1mSubject: hello" +:+ String ESC "[0m"
  /\ files (snd (run_command Json.json_formatter Cases.bold_formatter
                   Sample.analyze_formatter Enrich Sample.no_key Sample.succeed
                   Sample.program Cases.options_text_file Sample.world)) !! "out.txt"
     = Some ("Subject: hello" +:+ nl).
Proof.
  split; [reflexivity|].
  pose proof (output_is_stripped_at_both_ends Json.json_formatter Sample.enrich_formatter
                Sample.analyze_formatter Sample.no_key Sample.succeed Enrich Sample.program
                Sample.options (AVal (PStr "secret")) Sample.result Sample.world
                (Sample.request (with_client (AVal (PStr "secret")) Sample.world))
                eq_refl eq_refl) as ((w' & Hrun & Hout) & _).
  unfold Sample.run. rewrite Hrun. split; [exact Hout|]. split; [reflexivity|].
  split; [reflexivity|]. split; [reflexivity|].
  pose proof (output_is_stripped_at_both_ends Json.json_formatter Cases.bold_formatter
                Sample.analyze_formatter Sample.no_key Sample.succeed Enrich Sample.program
                Cases.options_text_file (AVal (PStr "secret")) Sample.result Sample.world
                (Sample.request (with_client (AVal (PStr "secret")) Sample.world))
                eq_refl eq_refl) as ((w'' & Hrun' & Hfile) & _).
  rewrite Hrun'. exact Hfile.
Defined.

(** The same formatter at a terminal: the codes reach standard output.  A
    code is taken out whole, and an unfinished one stays. *)
Example sample_bold_text :
  stdout (snd (run_command Json.json_formatter Cases.bold_formatter
                 Sample.analyze_formatter Enrich Sample.no_key Sample.succeed
                 Sample.program Sample.options Sample.world))
  = String ESC "[1mSubject: hello" +:+ String ESC "[0m" +:+ nl
  /\ strip_ansi (String ESC "[1mSubject: hello" +:+ String ESC "[0m" +:+ nl)
     = "Subject: hello" +:+ nl
  /\ strip_ansi (String ESC "[?25l" +:+ "a" +:+ String ESC "[31;1" +:+ String ESC "[0")
     = "a" +:+ String ESC "[31;1" +:+ String ESC "[0".
Proof. repeat split; reflexivity. Qed.

Lemma json_round_trip_witness :
  Json.well_formed Sample.result = true
  /\ Json.loads (Json.json_formatter Sample.result (AVal (PBool false))) = Some Sample.result.
Proof.
  split; [reflexivity|].
  exact (proj1 (json_round_trip Sample.result (AVal (PBool false)) eq_refl)).
Defined.

(** An API error raised with its status alone. *)
Lemma api_error_payload_precondition_witness :
  Sample.fail (RequestFailure [PInt 502]) (context_of Analyze Sample.program Sample.options)
    {| client_api_key := AVal (PStr "secret") |} Sample.world
  = (Raise (RequestFailure [PInt 502]), Sample.request Sample.world)
  /\ handle_exceptions
       (Sample.fail (RequestFailure [PInt 502])
          (context_of Analyze Sample.program Sample.options)
          {| client_api_key := AVal (PStr "secret") |}) Sample.world
     = (Raise IndexError, Sample.request Sample.world).
Proof.
  split; [reflexivity|].
  apply (api_error_payload_precondition _ [PInt 502] Sample.world
           (Sample.request Sample.world) eq_refl).
  simpl. lia.
Defined.

Lemma mdm_in_current_directory_witness :
  opt_output Sample.options = None
  /\ credentials Sample.no_key Sample.options = Some (AVal (PStr "secret"))
  /\ output_file_name (file_name (File_r (opt_input Sample.options))) = "message.mdm"
  /\ in_current_directory "message.mdm"
  /\ files (snd (Sample.run Enrich Sample.no_key Sample.succeed Sample.options))
       !! "mail/message.mdm" = None.
Proof.
  split; [reflexivity|]. split; [reflexivity|]. split; [reflexivity|].
  pose proof (mdm_in_current_directory Json.json_formatter Sample.enrich_formatter
                Sample.analyze_formatter Sample.no_key Sample.succeed Sample.program
                Sample.options (AVal (PStr "secret")) Sample.result Sample.world
                (Sample.request (with_client (AVal (PStr "secret")) Sample.world))
                eq_refl eq_refl eq_refl) as (w' & Hrun & _ & Hcwd & _ & Hframe).
  split; [exact Hcwd|].
  unfold Sample.run. rewrite Hrun. simpl snd. rewrite Hframe; [reflexivity|].
  intros Hno. apply Hno. vm_compute. right. right. right. right. left.
Defined.

(** [analyze] with the key of the configuration: one output, no MDM copy. *)
Example sample_analyze_saved_key :
  Sample.run Analyze Sample.saved_key Sample.succeed Sample.options_no_key
  = (Return tt,
     {| stdout := "Detections: 0" +:+ nl;
        files := ∅;
        log := [];
        clients := [{| client_api_key := AVal (PStr "saved") |}];
        network := ["POST"];
        stdin_isatty := true;
        stdout_isatty := true |}).
Proof. reflexivity. Qed.

(** A transport failure, and an API error whose body has no [detail]. *)
Example sample_transport_failure :
  Sample.run Enrich Sample.no_key (Sample.fail (RequestException "timed out")) Sample.options
  = (Raise (Exit (-1)),
     {| stdout := EmptyString;
        files := ∅;
        log := ["API error: timed out"];
        clients := [{| client_api_key := AVal (PStr "secret") |}];
        network := ["POST"];
        stdin_isatty := true;
        stdout_isatty := true |}).
Proof. reflexivity. Qed.

Example sample_body_without_detail :
  fst (Sample.run Enrich Sample.no_key
         (Sample.fail (RequestFailure [PInt 500; PDict [("message", PStr "oops")]]))
         Sample.options)
  = Raise (KeyError (AVal (PStr "detail"))).
Proof. reflexivity. Qed.

(* ================================================================== *)
(** * Further properties of the decorators *)

(** ** The handler on its own *)

Section HandlerMore.
Context {A : Type} (function0 : M A).

(** What [handle_exceptions] raises is never a remote failure. *)
Lemma handle_exceptions_outcome (w : World) :
  match handle_exceptions function0 w with
  | (Return _, _) => True
  | (Raise e, _) => remote_failure e = false
  end.
Proof.
  destruct (function0 w) as [[a|e] w1] eqn:Hf.
  - by rewrite (handle_exceptions_return function0 a w w1 Hf).
  - destruct (remote_failure e) eqn:He.
    + destruct e as [args|message| | | | | |]; try discriminate He.
      * rewrite (handle_exceptions_request_failure function0 args w w1 Hf).
        destruct (args !! 1%nat) as [[| | | | |body]|]; try done.
        by destruct (assoc "detail" body).
      * by rewrite (handle_exceptions_detail function0 _ message w w1 Hf eq_refl).
    + by rewrite (handle_exceptions_other function0 e w w1 He Hf).
Qed.

(** X6.  No transport failure and no API error ever leaves
    [handle_exceptions], whatever the wrapped function does, and so putting
    the decorator twice around a function is putting it once. *)
Theorem handle_exceptions_idempotent (w : World) :
  (forall e, fst (handle_exceptions function0 w) = Raise e -> remote_failure e = false)
  /\ handle_exceptions (handle_exceptions function0) w = handle_exceptions function0 w.
Proof.
  pose proof (handle_exceptions_outcome w) as H.
  destruct (handle_exceptions function0 w) as [[a|e] w'] eqn:Hh.
  - split; [discriminate|]. by apply handle_exceptions_return.
  - split; [by intros ? [= <-]|]. by apply handle_exceptions_other.
Qed.

(** X7.  An API error whose second argument is not a dictionary makes the
    handler raise [TypeError] where it subscripts the body; nothing is
    logged. *)
Theorem api_error_body_not_a_dictionary (args : list pyval) (body : pyval) (w w1 : World) :
  function0 w = (Raise (RequestFailure args), w1) ->
  args !! 1%nat = Some body ->
  (forall d, body <> PDict d) ->
  handle_exceptions function0 w = (Raise TypeError, w1).
Proof.
  intros Hf Hbody Hnot.
  rewrite (handle_exceptions_request_failure function0 args w w1 Hf), Hbody.
  destruct body; try reflexivity. by destruct (Hnot d).
Qed.

(** When the function raises, the handler raises too, and leaves the world
    of the function but for the log. *)
Lemma handle_exceptions_raise (e : exn) (w w1 : World) :
  function0 w = (Raise e, w1) ->
  exists e' w', handle_exceptions function0 w = (Raise e', w')
    /\ stdout w' = stdout w1 /\ files w' = files w1
    /\ clients w' = clients w1 /\ network w' = network w1
    /\ (remote_failure e = false -> e' = e /\ w' = w1).
Proof.
  intros Hf. destruct (remote_failure e) eqn:He.
  - destruct e as [args|message| | | | | |]; try discriminate He.
    + rewrite (handle_exceptions_request_failure function0 args w w1 Hf).
      destruct (args !! 1%nat) as [[| | | | |body]|];
        try (eexists _, _; split; [reflexivity|]; by repeat split).
      destruct (assoc "detail" body);
        eexists _, _; (split; [reflexivity|]); by repeat split.
    + rewrite (handle_exceptions_detail function0 _ message w w1 Hf eq_refl).
      eexists _, _. split; [reflexivity|]. by repeat split.
  - rewrite (handle_exceptions_other function0 e w w1 He Hf).
    eexists _, _. split; [reflexivity|]. by repeat split.
Qed.
End HandlerMore.

(** ** The commands as a whole *)

Section PipelineMore.
Context {Response : Type}.
Variables json_formatter enrich_formatter analyze_formatter : @formatter Response.
Variable function : Context -> Client -> M Response.

(** X2.  [analyze] without [-o] writes its result to standard output and
    touches no file: the MDM copy is for the command named [enrich] alone. *)
Theorem analyze_writes_no_file config parent o key result w w1 :
  opt_output o = None ->
  credentials config o = Some key ->
  function (context_of Analyze parent o) {| client_api_key := key |} (with_client key w)
  = (Return result, w1) ->
  run_command json_formatter enrich_formatter analyze_formatter
      Analyze config function parent o w
  = (Return tt,
     set_stdout
       (fun out => out +:+ echoed (stdout_isatty w1)
                             (primary_output json_formatter enrich_formatter
                                analyze_formatter Analyze o result)) w1)
  /\ files (snd (run_command json_formatter enrich_formatter analyze_formatter
      Analyze config function parent o w)) = files w1.
Proof.
  intros Hout Hkey Hf.
  rewrite (run_command_success json_formatter enrich_formatter analyze_formatter
             config function Analyze parent o key result w w1 Hkey Hf), Hout.
  by split.
Qed.

(** X1.  Whatever the subcommand body raises, the command raises as well and
    writes nothing: standard output and the files stay as the body left
    them.  An exception that is no remote failure leaves the command as the
    body raised it, with nothing logged, so a body that exits by itself
    decides the exit status. *)
Theorem exception_leaves_no_output config a parent o key e w w1 :
  credentials config o = Some key ->
  function (context_of a parent o) {| client_api_key := key |} (with_client key w)
  = (Raise e, w1) ->
  exists e' w', run_command json_formatter enrich_formatter analyze_formatter
      a config function parent o w = (Raise e', w')
    /\ stdout w' = stdout w1 /\ files w' = files w1
    /\ clients w' = clients w1 /\ network w' = network w1
    /\ (remote_failure e = false -> e' = e /\ w' = w1).
Proof.
  intros Hkey Hf.
  rewrite (run_command_credentials json_formatter enrich_formatter analyze_formatter
             config function a parent o key w Hkey).
  destruct (handle_exceptions_raise _ e _ w1 Hf) as (e' & w' & Hh & Hframe).
  exists e', w'. split; [|exact Hframe].
  by apply echo_result_raise.
Qed.

(** X3.  A key given with [-k] is the key of the client, the empty string
    included, and the configuration plays no part: the command does the
    same under any two configurations. *)
Theorem api_key_option_takes_precedence config config' a parent o k w :
  opt_api_key o = Some k ->
  run_command json_formatter enrich_formatter analyze_formatter
      a config function parent o w
  = echo_result json_formatter enrich_formatter analyze_formatter (context_of a parent o)
      (handle_exceptions
         (function (context_of a parent o) {| client_api_key := AVal (PStr k) |}))
      (with_client (AVal (PStr k)) w)
  /\ run_command json_formatter enrich_formatter analyze_formatter
      a config function parent o w
     = run_command json_formatter enrich_formatter analyze_formatter
         a config' function parent o w.
Proof.
  intros Hk.
  assert (Hc : forall c, credentials c o = Some (AVal (PStr k)))
    by (intros c; unfold credentials; by rewrite Hk).
  rewrite !(run_command_credentials json_formatter enrich_formatter analyze_formatter
              _ function a parent o _ w (Hc _)).
  by split.
Qed.

(** X4.  Without [-k], a configuration that has no [api_key] entry makes
    [pass_api_client] raise [KeyError] where it subscripts the
    configuration: the text about the missing key is not shown, and nothing
    else happens. *)
Theorem configuration_without_entry config a parent o w :
  opt_api_key o = None ->
  config !! "api_key" = None ->
  run_command json_formatter enrich_formatter analyze_formatter
      a config function parent o w = (Raise (KeyError (AVal (PStr "api_key"))), w).
Proof.
  intros Hflag Hconfig.
  rewrite run_command_wrapper. unfold wrapper, pass_api_client.
  rewrite params_api_key, Hflag. cbn [fmap option_fmap option_map optional default].
  unfold bind at 1 2. unfold dict_getitem at 1. by rewrite Hconfig.
Qed.

(** X5.  Without [-k] and without a true key in the configuration, a command
    that runs with no parent context raises [AttributeError] where it reads
    the name of the program: the text about the missing key is not shown. *)
Theorem missing_key_without_parent config a o key w :
  opt_api_key o = None ->
  config !! "api_key" = Some key ->
  truthy key = false ->
  run_command json_formatter enrich_formatter analyze_formatter
      a config function None o w = (Raise AttributeError, w).
Proof.
  intros Hflag Hconfig Hkey.
  rewrite run_command_wrapper. unfold wrapper, pass_api_client.
  rewrite params_api_key, Hflag. cbn [fmap option_fmap option_map optional default].
  unfold bind at 1 2. unfold dict_getitem at 1. rewrite Hconfig.
  unfold ret at 1. cbv beta iota. unfold bind at 1. rewrite Hkey. cbn [negb].
  by destruct a.
Qed.
End PipelineMore.

(** ** More on the default file name *)

Section NameMore.
Import OsPath.

Lemma root_has_non_dot (b : list ascii) :
  sep ∉ b -> existsb non_dot b = true -> existsb non_dot (fst (splitext_chars b)) = true.
Proof.
  intros Hb Hnd. destruct (last_dot_split b Hb) as [Hno|(s & e & -> & Hs & He & Hdot)].
  - by rewrite splitext_no_dot.
  - pose proof (splitext_last_dot [] s e (or_introl eq_refl) Hs He Hdot) as H.
    simpl app in H. rewrite H. by destruct (existsb non_dot s) eqn:Hstem.
Qed.

Lemma mdm_no_special : (sep ∉ chars "mdm") /\ (extsep ∉ chars "mdm").
Proof.
  split; vm_compute; intros H;
    repeat (apply elem_of_cons in H as [H|H]; [discriminate H|]);
    by apply elem_of_nil in H.
Qed.

Lemma output_file_name_of_mdm (stem : string) :
  sep ∉ chars stem -> existsb non_dot (chars stem) = true ->
  Decorator.output_file_name (stem +:+ ".mdm") = stem +:+ ".mdm".
Proof.
  intros Hsep Hnd. destruct mdm_no_special as [Hs Hd].
  destruct (output_file_name_spec (stem +:+ ".mdm")) as (_ & Hstem & _).
  apply (Hstem stem "mdm"); [|exact Hd|exact Hnd].
  apply basename_of_plain. rewrite chars_app, elem_of_app. intros [Hin|Hin]; [done|].
  revert Hin. vm_compute. intros H.
  repeat (apply elem_of_cons in H as [H|H]; [discriminate H|]).
  by apply elem_of_nil in H.
Qed.

(** X10.  The default name of a default name is itself: when the base name
    of the input has a character other than a dot, deriving the name again
    from the derived name changes nothing, so an input that is an MDM file
    of the current directory is given its own name. *)
Theorem output_file_name_idempotent (name : string) :
  existsb non_dot (chars (basename name)) = true ->
  Decorator.output_file_name (Decorator.output_file_name name)
  = Decorator.output_file_name name.
Proof.
  intros Hnd. rewrite (output_file_name_basename name).
  apply output_file_name_of_mdm.
  - rewrite fst_splitext, chars_of_chars, chars_basename.
    destruct (splitext_root_prefix (basename_chars (chars name))) as [ext Hext].
    pose proof (basename_sep_free (chars name)) as Hb. rewrite Hext in Hb.
    rewrite elem_of_app in Hb. tauto.
  - rewrite fst_splitext, chars_of_chars, chars_basename.
    apply root_has_non_dot; [apply basename_sep_free|by rewrite <- chars_basename].
Qed.

(** A string splits at its last dot in one way. *)
Lemma last_dot_unique (s e s' e' : list ascii) :
  s ++ extsep :: e = s' ++ extsep :: e' -> extsep ∉ e -> extsep ∉ e' -> s = s' /\ e = e'.
Proof.
  intros Heq He He'.
  assert (Hlen : length s = length s').
  { pose proof (rfind_last extsep s e He) as H1.
    pose proof (rfind_last extsep s' e' He') as H2.
    rewrite Heq in H1. lia. }
  apply app_inj_1 in Heq as [-> [= ->]]; done.
Qed.

(** X8.  For every input name, the default name is the base name with its
    extension replaced by [.mdm].  The base name is a root followed by an
    extension, and the default name is the root followed by [.mdm].  The
    extension is the last dot of the base name with all that follows it,
    whenever a character other than a dot stands before that dot; it is
    empty only when the base name has no dot, or has nothing but dots
    before its last dot. *)
Theorem output_file_name_replaces_one_suffix (name : string) :
  exists root ext,
    basename name = root +:+ ext
    /\ Decorator.output_file_name name = root +:+ ".mdm"
    /\ ((ext = EmptyString
         /\ forall stem e, basename name = stem +:+ "." +:+ e -> extsep ∉ chars e ->
              existsb non_dot (chars stem) = false)
        \/ (exists e, ext = "." +:+ e /\ (extsep ∉ chars e) /\ (sep ∉ chars e)
              /\ existsb non_dot (chars root) = true)).
Proof.
  pose proof (basename_sep_free (chars name)) as Hb.
  rewrite <- chars_basename in Hb.
  assert (Hsplit : forall stem e, basename name = stem +:+ "." +:+ e ->
            chars (basename name) = chars stem ++ extsep :: chars e).
  { intros stem e ->. by rewrite !chars_app. }
  destruct (last_dot_split (chars (basename name)) Hb)
    as [Hno|(s & e & Heq & Hs & He & Hdot)].
  - exists (basename name), EmptyString.
    split; [by rewrite string_app_empty_r|]. split.
    + rewrite output_file_name_basename, fst_splitext, splitext_no_dot by done.
      simpl. by rewrite of_chars_chars.
    + left. split; [done|]. intros stem e' Hname _. exfalso. apply Hno.
      rewrite (Hsplit stem e' Hname), elem_of_app, elem_of_cons. auto.
  - pose proof (splitext_last_dot [] s e (or_introl eq_refl) Hs He Hdot) as Hsp.
    simpl app in Hsp. rewrite <- Heq in Hsp.
    destruct (existsb non_dot s) eqn:Hstem.
    + exists (of_chars s), (of_chars (extsep :: e)).
      split; [by rewrite <- of_chars_app, <- Heq, of_chars_chars|]. split.
      * by rewrite output_file_name_basename, fst_splitext, Hsp.
      * right. exists (of_chars e). rewrite !chars_of_chars. by repeat split.
    + exists (basename name), EmptyString.
      split; [by rewrite string_app_empty_r|]. split.
      * rewrite output_file_name_basename, fst_splitext, Hsp. simpl.
        by rewrite of_chars_chars.
      * left. split; [done|]. intros stem e' Hname He'.
        rewrite (Hsplit stem e' Hname) in Heq.
        by destruct (last_dot_unique _ _ _ _ Heq He' Hdot) as [-> _].
Qed.
(** X9.  Leading dots make no extension: when all the characters before the
    last dot of the base name are dots, as in [.eml], the default name is
    the whole base name followed by [.mdm]. *)
Theorem output_file_name_of_dot_file (name stem ext : string) :
  basename name = stem +:+ "." +:+ ext ->
  extsep ∉ chars ext ->
  existsb non_dot (chars stem) = false ->
  Decorator.output_file_name name = basename name +:+ ".mdm".
Proof.
  intros Hname Hext Hstem. rewrite output_file_name_basename. f_equal.
  rewrite fst_splitext. rewrite Hname at 1. rewrite !chars_app.
  change (chars ".") with [extsep]. simpl app.
  pose proof (basename_sep_free (chars name)) as Hb.
  rewrite <- chars_basename, Hname, !chars_app in Hb.
  change (chars ".") with [extsep] in Hb. simpl app in Hb.
  rewrite elem_of_app, elem_of_cons in Hb.
  pose proof (splitext_last_dot [] (chars stem) (chars ext) (or_introl eq_refl)) as Hs.
  simpl app in Hs. rewrite Hs by tauto. rewrite Hstem. simpl fst.
  rewrite Hname, <- (of_chars_chars (stem +:+ "." +:+ ext)), !chars_app. reflexivity.
Qed.
End NameMore.

Section PipelineNames.
Context {Response : Type}.
Variables json_formatter enrich_formatter analyze_formatter : @formatter Response.
Variable function : Context -> Client -> M Response.

(** X12.  [enrich -i -], which reads the message from standard input, makes
    its JSON copy in a file that is named [<stdin>.mdm], after the name of
    the stream: the copy never goes to standard output. *)
Theorem enrich_standard_input config parent o key result w w1 :
  opt_input o = "-" ->
  opt_output o = None ->
  credentials config o = Some key ->
  function (context_of Enrich parent o) {| client_api_key := key |} (with_client key w)
  = (Return result, w1) ->
  exists w', run_command json_formatter enrich_formatter analyze_formatter
      Enrich config function parent o w = (Return tt, w')
    /\ files w' = <[ "<stdin>.mdm" := echoed false (json_output json_formatter result) ]>
                    (files w1)
    /\ stdout w' = stdout w1
                   +:+ echoed (stdout_isatty w1)
                         (primary_output json_formatter enrich_formatter analyze_formatter
                            Enrich o result).
Proof.
  intros Hin Hout Hkey Hf.
  rewrite (run_command_success json_formatter enrich_formatter analyze_formatter
             config function Enrich parent o key result w w1 Hkey Hf), Hout, Hin.
  eexists. split; [reflexivity|]. by split.
Qed.

(** X11.  [enrich] without [-o] on an input [stem.mdm] of the current
    directory writes its JSON copy over the input file itself. *)
Theorem enrich_overwrites_mdm_input config parent o stem key result w w1 :
  opt_input o = stem +:+ ".mdm" ->
  OsPath.sep ∉ chars stem ->
  existsb OsPath.non_dot (chars stem) = true ->
  opt_output o = None ->
  credentials config o = Some key ->
  function (context_of Enrich parent o) {| client_api_key := key |} (with_client key w)
  = (Return result, w1) ->
  exists w', run_command json_formatter enrich_formatter analyze_formatter
      Enrich config function parent o w = (Return tt, w')
    /\ files w' !! opt_input o = Some (echoed false (json_output json_formatter result)).
Proof.
  intros Hin Hsep Hnd Hout Hkey Hf.
  rewrite (run_command_success json_formatter enrich_formatter analyze_formatter
             config function Enrich parent o key result w w1 Hkey Hf), Hout, Hin.
  eexists. split; [reflexivity|].
  assert (Hname : file_name (File_r (stem +:+ ".mdm")) = stem +:+ ".mdm").
  { unfold File_r. destruct stem as [|c [|c' s]]; try done; simpl;
      by destruct (Ascii.eqb c "-"). }
  rewrite Hname, (output_file_name_of_mdm stem Hsep Hnd). simpl.
  apply lookup_insert_eq.
Qed.
End PipelineNames.

(** ** The commands that are not implemented *)

Section NotImplementedMore.
Import NotImplemented.
Variable config : gmap string pyval.
Variable not_implemented : Client -> string -> M unit.

(** With a true key in the configuration, the wrapper runs with a client
    for that key. *)
Lemma not_implemented_command_key name command_name parent key w :
  config !! "api_key" = Some key -> truthy key = true ->
  not_implemented_command name command_name config not_implemented parent w
  = wrapper command_name not_implemented {| client_api_key := AVal key |}
      (with_client (AVal key) w).
Proof.
  intros Hconfig Hkey. unfold not_implemented_command, pass_api_client.
  change (dict_get (params _) "api_key" (AVal PNone)) with (AVal PNone).
  unfold bind at 1 2. unfold dict_getitem at 1. rewrite Hconfig.
  unfold ret at 1. cbv beta iota. unfold bind at 1. rewrite Hkey. cbn [negb].
  unfold ret at 1. cbv beta iota. unfold dict_getitem, bind. rewrite Hconfig.
  reflexivity.
Qed.

(** X13.  When the service refuses the call with an API error, whatever its
    arguments, the command ends with [SubcommandNotImplemented], whose
    message names the function; the payload is not read, nothing is logged
    or printed, and the exit status is 1. *)
Theorem refused_call_is_not_implemented name command_name parent key args w w1 :
  config !! "api_key" = Some key -> truthy key = true ->
  not_implemented {| client_api_key := AVal key |} command_name (with_client (AVal key) w)
  = (Raise (RequestFailure args), w1) ->
  not_implemented_command name command_name config not_implemented parent w
  = (Return (ClickException
               (repr_str command_name +:+ " subcommand is not implemented yet.")), w1)
  /\ ending_status
       (fst (not_implemented_command name command_name config not_implemented parent w))
     = 1%Z.
Proof.
  intros Hconfig Hkey Hcall.
  rewrite (not_implemented_command_key name command_name parent key w Hconfig Hkey).
  unfold wrapper, try_except, bind. by rewrite Hcall.
Qed.

(** X14.  When the service accepts the call, the command returns without
    printing anything; and an exception of the call that is no API error, a
    transport failure included, leaves the command as it was raised: this
    decorator does not log it or turn it into an exit. *)
Theorem accepted_call_is_silent name command_name parent key w :
  config !! "api_key" = Some key -> truthy key = true ->
  let call := not_implemented {| client_api_key := AVal key |} command_name
                (with_client (AVal key) w) in
  let r := not_implemented_command name command_name config not_implemented parent w in
  (fst call = Return tt -> r = (Return Returned, snd call))
  /\ (forall e, fst call = Raise e ->
        (forall args, e <> RequestFailure args) -> r = (Raise e, snd call)).
Proof.
  intros Hconfig Hkey call r. subst r.
  rewrite (not_implemented_command_key name command_name parent key w Hconfig Hkey).
  unfold wrapper, try_except, bind. fold call.
  destruct call as [[[]|e] w1]; simpl; split; try discriminate; try done.
  - intros e' [= <-] Hne. destruct e; try done. by destruct (Hne args).
Qed.

Lemma not_implemented_command_no_key name command_name parent
    (method : Client -> string -> M unit) w :
  (forall key, config !! "api_key" = Some key -> truthy key = false) ->
  not_implemented_command name command_name config method parent w =
    match config !! "api_key", parent with
    | None, _ => (Raise (KeyError (AVal (PStr "api_key"))), w)
    | Some _, None => (Raise AttributeError, w)
    | Some _, Some p =>
        (Raise (Exit (-1)),
         set_stdout (fun out => out +:+ api_key_not_found (info_name p) +:+ nl) w)
    end.
Proof.
  intros Hno. unfold not_implemented_command, pass_api_client.
  change (dict_get (params _) "api_key" (AVal PNone)) with (AVal PNone).
  unfold bind at 1 2. unfold dict_getitem at 1.
  destruct (config !! "api_key") as [key|] eqn:Hconfig; [|done].
  specialize (Hno key eq_refl).
  unfold ret at 1. cbv beta iota. unfold bind at 1. rewrite Hno. cbn [negb].
  destruct parent as [p|]; [|done].
  by rewrite (show_api_key_not_found
                {| command_name := name; params := ∅; parent := Some p |} p w eq_refl).
Qed.

(** X15.  The command declares no option, so the key can only come from the
    configuration: without a true key there, the method of the client is
    never called, whatever it is, and with the [api_key] entry present and
    a parent context the command shows the text about the missing key and
    exits with status -1. *)
Theorem not_implemented_needs_saved_key name command_name parent
    (other : Client -> string -> M unit) w :
  (forall key, config !! "api_key" = Some key -> truthy key = false) ->
  not_implemented_command name command_name config not_implemented parent w
  = not_implemented_command name command_name config other parent w
  /\ (forall key p, config !! "api_key" = Some key -> parent = Some p ->
        not_implemented_command name command_name config not_implemented parent w
        = (Raise (Exit (-1)),
           set_stdout (fun out => out +:+ api_key_not_found (info_name p) +:+ nl) w)).
Proof.
  intros Hno.
  rewrite !(not_implemented_command_no_key name command_name parent _ w Hno).
  split; [done|]. by intros key p -> ->.
Qed.
End NotImplementedMore.

(** ** The further properties on the sample session *)

Lemma exception_leaves_no_output_witness :
  credentials Sample.no_key Sample.options = Some (AVal (PStr "secret"))
  /\ Sample.run Enrich Sample.no_key (Sample.fail (OtherError "ValueError")) Sample.options
     = (Raise (OtherError "ValueError"),
        Sample.request (with_client (AVal (PStr "secret")) Sample.world)).
Proof.
  split; [reflexivity|].
  destruct (exception_leaves_no_output Json.json_formatter Sample.enrich_formatter
              Sample.analyze_formatter (Sample.fail (OtherError "ValueError"))
              Sample.no_key Enrich Sample.program Sample.options (AVal (PStr "secret"))
              (OtherError "ValueError") Sample.world
              (Sample.request (with_client (AVal (PStr "secret")) Sample.world))
              eq_refl eq_refl) as (e' & w' & Hrun & _ & _ & _ & _ & Hsame).
  destruct (Hsame eq_refl) as [-> ->]. exact Hrun.
Defined.

Lemma analyze_writes_no_file_witness :
  opt_output Sample.options = None
  /\ credentials Sample.no_key Sample.options = Some (AVal (PStr "secret"))
  /\ files (snd (Sample.run Analyze Sample.no_key Sample.succeed Sample.options)) = ∅
  /\ stdout (snd (Sample.run Analyze Sample.no_key Sample.succeed Sample.options))
     = "Detections: 0" +:+ nl.
Proof.
  split; [reflexivity|]. split; [reflexivity|].
  destruct (analyze_writes_no_file Json.json_formatter Sample.enrich_formatter
              Sample.analyze_formatter Sample.succeed Sample.no_key Sample.program
              Sample.options (AVal (PStr "secret")) Sample.result Sample.world
              (Sample.request (with_client (AVal (PStr "secret")) Sample.world))
              eq_refl eq_refl eq_refl) as [Hrun Hfiles].
  split; [exact Hfiles|]. unfold Sample.run. rewrite Hrun. reflexivity.
Defined.

(** [-k secret] with a configuration that saves another key. *)
Lemma api_key_option_takes_precedence_witness :
  opt_api_key Sample.options = Some "secret"
  /\ Sample.run Enrich Sample.saved_key Sample.succeed Sample.options
     = Sample.run Enrich Sample.no_key Sample.succeed Sample.options
  /\ clients (snd (Sample.run Enrich Sample.saved_key Sample.succeed Sample.options))
     = [{| client_api_key := AVal (PStr "secret") |}].
Proof.
  split; [reflexivity|].
  split; [|reflexivity].
  exact (proj2 (api_key_option_takes_precedence Json.json_formatter Sample.enrich_formatter
                  Sample.analyze_formatter Sample.succeed Sample.saved_key Sample.no_key
                  Enrich Sample.program Sample.options "secret" Sample.world eq_refl)).
Defined.

Lemma configuration_without_entry_witness :
  opt_api_key Sample.options_no_key = None
  /\ Cases.empty_config !! "api_key" = None
  /\ Sample.run Analyze Cases.empty_config Sample.succeed Sample.options_no_key
     = (Raise (KeyError (AVal (PStr "api_key"))), Sample.world).
Proof.
  split; [reflexivity|]. split; [reflexivity|].
  apply (configuration_without_entry Json.json_formatter Sample.enrich_formatter
           Sample.analyze_formatter Sample.succeed Cases.empty_config Analyze
           Sample.program Sample.options_no_key Sample.world); reflexivity.
Defined.

(** The subcommand invoked on its own, outside the program's group. *)
Lemma missing_key_without_parent_witness :
  opt_api_key Sample.options_no_key = None
  /\ Sample.no_key !! "api_key" = Some (PStr EmptyString)
  /\ run_command Json.json_formatter Sample.enrich_formatter Sample.analyze_formatter
       Enrich Sample.no_key Sample.succeed None Sample.options_no_key Sample.world
     = (Raise AttributeError, Sample.world).
Proof.
  split; [reflexivity|]. split; [reflexivity|].
  apply (missing_key_without_parent Json.json_formatter Sample.enrich_formatter
           Sample.analyze_formatter Sample.succeed Sample.no_key Enrich
           Sample.options_no_key (PStr EmptyString) Sample.world); reflexivity.
Defined.

(** A body that is the text of an error page. *)
Lemma api_error_body_not_a_dictionary_witness :
  [PInt 502; PStr "Bad Gateway"] !! 1%nat = Some (PStr "Bad Gateway")
  /\ handle_exceptions
       (Sample.fail Cases.gateway_error (context_of Analyze Sample.program Sample.options)
          {| client_api_key := AVal (PStr "secret") |}) Sample.world
     = (Raise TypeError, Sample.request Sample.world).
Proof.
  split; [reflexivity|].
  apply (api_error_body_not_a_dictionary _ [PInt 502; PStr "Bad Gateway"]
           (PStr "Bad Gateway") Sample.world (Sample.request Sample.world) eq_refl eq_refl).
  discriminate.
Defined.

Lemma output_file_name_of_dot_file_witness :
  OsPath.basename "mail/.eml" = EmptyString +:+ "." +:+ "eml"
  /\ output_file_name "mail/.eml" = ".eml.mdm".
Proof.
  split; [reflexivity|].
  apply (output_file_name_of_dot_file "mail/.eml" EmptyString "eml");
    [reflexivity| |reflexivity].
  vm_compute. intros H.
  repeat (apply elem_of_cons in H as [H|H]; [discriminate H|]).
  by apply elem_of_nil in H.
Defined.

Lemma output_file_name_idempotent_witness :
  existsb OsPath.non_dot (chars (OsPath.basename "mail/message.eml")) = true
  /\ output_file_name "mail/message.eml" = "message.mdm"
  /\ output_file_name (output_file_name "mail/message.eml")
     = output_file_name "mail/message.eml".
Proof.
  split; [reflexivity|]. split; [reflexivity|].
  apply (output_file_name_idempotent "mail/message.eml"). reflexivity.
Defined.

(** [enrich -k secret -i message.mdm -f json]. *)
Lemma enrich_overwrites_mdm_input_witness :
  opt_input Cases.options_mdm = "message" +:+ ".mdm"
  /\ opt_output Cases.options_mdm = None
  /\ files (snd (Sample.run Enrich Sample.no_key Sample.succeed Cases.options_mdm))
       !! "message.mdm"
     = Some (json_output Json.json_formatter Sample.result +:+ nl).
Proof.
  split; [reflexivity|]. split; [reflexivity|].
  assert (Hsep : OsPath.sep ∉ chars "message").
  { vm_compute. intros H.
    repeat (apply elem_of_cons in H as [H|H]; [discriminate H|]).
    by apply elem_of_nil in H. }
  destruct (enrich_overwrites_mdm_input Json.json_formatter Sample.enrich_formatter
              Sample.analyze_formatter Sample.succeed Sample.no_key Sample.program
              Cases.options_mdm "message" (AVal (PStr "secret")) Sample.result
              Sample.world
              (Sample.request (with_client (AVal (PStr "secret")) Sample.world))
              eq_refl Hsep eq_refl eq_refl eq_refl eq_refl)
    as (w' & Hrun & Hfile).
  unfold Sample.run. rewrite Hrun. exact Hfile.
Defined.

(** [enrich -k secret -i -]. *)
Lemma enrich_standard_input_witness :
  opt_input Cases.options_stdin = "-"
  /\ opt_output Cases.options_stdin = None
  /\ files (snd (Sample.run Enrich Sample.no_key Sample.succeed Cases.options_stdin))
     = <[ "<stdin>.mdm" := json_output Json.json_formatter Sample.result +:+ nl ]> ∅.
Proof.
  split; [reflexivity|]. split; [reflexivity|].
  destruct (enrich_standard_input Json.json_formatter Sample.enrich_formatter
              Sample.analyze_formatter Sample.succeed Sample.no_key Sample.program
              Cases.options_stdin (AVal (PStr "secret")) Sample.result Sample.world
              (Sample.request (with_client (AVal (PStr "secret")) Sample.world))
              eq_refl eq_refl eq_refl eq_refl) as (w' & Hrun & Hfiles & _).
  unfold Sample.run. rewrite Hrun. exact Hfiles.
Defined.

(** A command [lookup] that the service refuses. *)
Lemma refused_call_is_not_implemented_witness :
  Sample.saved_key !! "api_key" = Some (PStr "saved")
  /\ NotImplemented.not_implemented_command "lookup" "lookup" Sample.saved_key
       Cases.refused Sample.program Sample.world
     = (Return (NotImplemented.ClickException "'lookup' subcommand is not implemented yet."),
        Sample.request (with_client (AVal (PStr "saved")) Sample.world)).
Proof.
  split; [reflexivity|].
  exact (proj1 (refused_call_is_not_implemented Sample.saved_key Cases.refused
                  "lookup" "lookup" Sample.program (PStr "saved") [] Sample.world
                  (Sample.request (with_client (AVal (PStr "saved")) Sample.world))
                  eq_refl eq_refl eq_refl)).
Defined.

Lemma accepted_call_is_silent_witness :
  Sample.saved_key !! "api_key" = Some (PStr "saved")
  /\ NotImplemented.not_implemented_command "lookup" "lookup" Sample.saved_key
       Cases.accepted Sample.program Sample.world
     = (Return NotImplemented.Returned,
        Sample.request (with_client (AVal (PStr "saved")) Sample.world)).
Proof.
  split; [reflexivity|].
  exact (proj1 (accepted_call_is_silent Sample.saved_key Cases.accepted
                  "lookup" "lookup" Sample.program (PStr "saved") Sample.world
                  eq_refl eq_refl) eq_refl).
Defined.

Lemma not_implemented_needs_saved_key_witness :
  (forall key, Sample.no_key !! "api_key" = Some key -> truthy key = false)
  /\ NotImplemented.not_implemented_command "lookup" "lookup" Sample.no_key
       Cases.refused Sample.program Sample.world
     = NotImplemented.not_implemented_command "lookup" "lookup" Sample.no_key
         Cases.accepted Sample.program Sample.world
  /\ fst (NotImplemented.not_implemented_command "lookup" "lookup" Sample.no_key
            Cases.refused Sample.program Sample.world)
     = Raise (Exit (-1)).
Proof.
  assert (Hconfig : forall key, Sample.no_key !! "api_key" = Some key -> truthy key = false).
  { intros key Hkey. vm_compute in Hkey. injection Hkey as <-. reflexivity. }
  split; [exact Hconfig|].
  destruct (not_implemented_needs_saved_key Sample.no_key Cases.refused
              "lookup" "lookup" Sample.program Cases.accepted Sample.world Hconfig)
    as [Hsame Hexit].
  split; [exact Hsame|].
  by rewrite (Hexit (PStr EmptyString) {| info_name := PStr "sublime" |} eq_refl eq_refl).
Defined.
